(** * AI Werewolf: the game phase state machine and its resolution rules

    A shallow embedding of the reducer, the phase logic and the action
    handlers of [App.tsx], with the types of [types.ts], and the
    properties of the night resolution, the day vote, the win check, the
    witch potions and the role distribution proved about them. *)

From stdpp Require Import base option list strings pretty.
From Stdlib Require Import Permutation Lia.

Open Scope string_scope.
Open Scope list_scope.
Open Scope nat_scope.

(** * The program *)

(** ** types.ts *)

Inductive Role := WEREWOLF | VILLAGER | SEER | WITCH | HUNTER.

Inductive GamePhase :=
  | SETUP | NIGHT_START | NIGHT_WEREWOLF | NIGHT_SEER | NIGHT_WITCH | NIGHT_END
  | DAY_ANNOUNCE | DAY_DISCUSS | DAY_VOTE | DAY_EXECUTE | GAME_OVER.

#[global] Instance Role_eq_dec : EqDecision Role.
Proof. solve_decision. Defined.

#[global] Instance GamePhase_eq_dec : EqDecision GamePhase.
Proof. solve_decision. Defined.

(** [a === b] on two roles, two phases. *)
Definition Role_eqb (a b : Role) : bool := bool_decide (a = b).
Definition GamePhase_eqb (a b : GamePhase) : bool := bool_decide (a = b).

Record Player := {
  id : string;
  name : string;
  role : Role;
  isBot : bool;
  isAlive : bool;
  isDying : bool;
  isProtected : bool;
  isPoisoned : bool;
  hasActed : bool;
  voteTargetId : option string;
  avatarUrl : string
}.

(** ['normal' | 'narrative' | 'action' | 'alert'] *)
Inductive LogType := normal | narrative | action | alert.

Module LogMessage.
Record t := { id : string; sender : string; text : string; type : LogType }.
End LogMessage.

Module SeerResult.
Record t := { name : string; isWerewolf : bool }.
End SeerResult.

(** [winner: 'WEREWOLF' | 'VILLAGER' | null] *)
Inductive Winner := WEREWOLF_wins | VILLAGER_wins.

Record WitchPotions := { save : bool; poison : bool }.

Record GameState := {
  phase : GamePhase;
  players : list Player;
  humanPlayerId : option string;
  dayCount : nat;
  logs : list LogMessage.t;
  winner : option Winner;
  witchPotions : WitchPotions;
  lastKilledId : option string;
  seerCheckResult : option SeerResult.t
}.

(** ** JavaScript idioms *)

(** Truthiness of a [string | null]: [null] and the empty string are falsy. *)
Definition truthy (o : option string) : bool :=
  match o with
  | Some s => negb (String.eqb s "")
  | None => false
  end.

(** [p.id === x] for [x : string | null]. *)
Definition id_is (x : option string) (p : Player) : bool :=
  match x with
  | Some s => String.eqb (id p) s
  | None => false
  end.

(** ** App.tsx: the reducer *)

(** [Partial<Player>]: a field is [Some v] when the object literal has it. *)
Record PartialPlayer := {
  upd_id : option string;
  upd_name : option string;
  upd_role : option Role;
  upd_isBot : option bool;
  upd_isAlive : option bool;
  upd_isDying : option bool;
  upd_isProtected : option bool;
  upd_isPoisoned : option bool;
  upd_hasActed : option bool;
  upd_voteTargetId : option (option string);
  upd_avatarUrl : option string
}.

(** [{ ...p, ...updates }] *)
Definition spread (p : Player) (u : PartialPlayer) : Player :=
  {| id := default (id p) (upd_id u);
     name := default (name p) (upd_name u);
     role := default (role p) (upd_role u);
     isBot := default (isBot p) (upd_isBot u);
     isAlive := default (isAlive p) (upd_isAlive u);
     isDying := default (isDying p) (upd_isDying u);
     isProtected := default (isProtected p) (upd_isProtected u);
     isPoisoned := default (isPoisoned p) (upd_isPoisoned u);
     hasActed := default (hasActed p) (upd_hasActed u);
     voteTargetId := default (voteTargetId p) (upd_voteTargetId u);
     avatarUrl := default (avatarUrl p) (upd_avatarUrl u) |}.

Inductive Potion := save_potion | poison_potion.

(** The [Action] union.  [OTHER ty] stands for a value whose [type] tag is
    none of the ten of the union: what the [default] branch of the reducer
    receives. *)
Inductive Action :=
  | START_GAME (newPlayers : list Player) (humanId : string)
  | NEXT_PHASE (next : GamePhase)
  | ADD_LOG (message : LogMessage.t)
  | UPDATE_PLAYER (playerId : string) (updates : PartialPlayer)
  | SET_WITCH_POTION (potion : Potion) (used : bool)
  | SET_LAST_KILLED (playerId : option string)
  | SET_SEER_RESULT (result : option SeerResult.t)
  | SET_WINNER (w : Winner)
  | RESET_GAME
  | INCREMENT_DAY
  | OTHER (ty : string).

Definition initialState : GameState :=
  {| phase := SETUP;
     players := [];
     humanPlayerId := None;
     dayCount := 0;
     logs := [];
     winner := None;
     witchPotions := {| save := true; poison := true |};
     lastKilledId := None;
     seerCheckResult := None |}.

Definition set_phase (ph : GamePhase) (s : GameState) : GameState :=
  {| phase := ph; players := players s; humanPlayerId := humanPlayerId s;
     dayCount := dayCount s; logs := logs s; winner := winner s;
     witchPotions := witchPotions s; lastKilledId := lastKilledId s;
     seerCheckResult := seerCheckResult s |}.

Definition set_players (ps : list Player) (s : GameState) : GameState :=
  {| phase := phase s; players := ps; humanPlayerId := humanPlayerId s;
     dayCount := dayCount s; logs := logs s; winner := winner s;
     witchPotions := witchPotions s; lastKilledId := lastKilledId s;
     seerCheckResult := seerCheckResult s |}.

Definition set_dayCount (n : nat) (s : GameState) : GameState :=
  {| phase := phase s; players := players s; humanPlayerId := humanPlayerId s;
     dayCount := n; logs := logs s; winner := winner s;
     witchPotions := witchPotions s; lastKilledId := lastKilledId s;
     seerCheckResult := seerCheckResult s |}.

Definition set_logs (l : list LogMessage.t) (s : GameState) : GameState :=
  {| phase := phase s; players := players s; humanPlayerId := humanPlayerId s;
     dayCount := dayCount s; logs := l; winner := winner s;
     witchPotions := witchPotions s; lastKilledId := lastKilledId s;
     seerCheckResult := seerCheckResult s |}.

Definition set_winner (w : option Winner) (s : GameState) : GameState :=
  {| phase := phase s; players := players s; humanPlayerId := humanPlayerId s;
     dayCount := dayCount s; logs := logs s; winner := w;
     witchPotions := witchPotions s; lastKilledId := lastKilledId s;
     seerCheckResult := seerCheckResult s |}.

Definition set_witchPotions (w : WitchPotions) (s : GameState) : GameState :=
  {| phase := phase s; players := players s; humanPlayerId := humanPlayerId s;
     dayCount := dayCount s; logs := logs s; winner := winner s;
     witchPotions := w; lastKilledId := lastKilledId s;
     seerCheckResult := seerCheckResult s |}.

Definition set_lastKilledId (k : option string) (s : GameState) : GameState :=
  {| phase := phase s; players := players s; humanPlayerId := humanPlayerId s;
     dayCount := dayCount s; logs := logs s; winner := winner s;
     witchPotions := witchPotions s; lastKilledId := k;
     seerCheckResult := seerCheckResult s |}.

Definition set_seerCheckResult (r : option SeerResult.t) (s : GameState) : GameState :=
  {| phase := phase s; players := players s; humanPlayerId := humanPlayerId s;
     dayCount := dayCount s; logs := logs s; winner := winner s;
     witchPotions := witchPotions s; lastKilledId := lastKilledId s;
     seerCheckResult := r |}.

(** [{ ...state.witchPotions, [action.potion]: !action.used }] *)
Definition set_potion (potion : Potion) (v : bool) (w : WitchPotions) : WitchPotions :=
  match potion with
  | save_potion => {| save := v; poison := poison w |}
  | poison_potion => {| save := save w; poison := v |}
  end.

Definition gameReducer (state : GameState) (action : Action) : GameState :=
  match action with
  | START_GAME newPlayers humanId =>
      {| phase := NIGHT_START;
         players := newPlayers;
         humanPlayerId := Some humanId;
         dayCount := 1;
         logs := logs initialState;
         winner := winner initialState;
         witchPotions := witchPotions initialState;
         lastKilledId := lastKilledId initialState;
         seerCheckResult := seerCheckResult initialState |}
  | NEXT_PHASE next => set_phase next state
  | ADD_LOG message => set_logs (logs state ++ [message]) state
  | UPDATE_PLAYER playerId updates =>
      set_players
        (map (fun p => if String.eqb (id p) playerId then spread p updates else p)
             (players state))
        state
  | SET_WITCH_POTION potion used =>
      set_witchPotions (set_potion potion (negb used) (witchPotions state)) state
  | SET_LAST_KILLED playerId => set_lastKilledId playerId state
  | SET_SEER_RESULT result => set_seerCheckResult result state
  | SET_WINNER w => set_winner (Some w) state
  | INCREMENT_DAY => set_dayCount (dayCount state + 1) state
  | RESET_GAME => initialState
  | OTHER _ => state
  end.

(** ** Dispatching

    The sound cues ([playVoteSound], [playDeathSound]) and the scrolling
    and focus of the page leave the store alone and are not modelled.

    A handler reads the state of the render it was created in and
    dispatches actions; React applies them to the store in the order of
    the calls.  [Eff A] is the run of a handler: the actions dispatched so
    far and the value returned, or [None] when it threw (a [TypeError] on
    a property of [undefined]). *)

Definition Eff (A : Type) : Type := list Action * option A.

Definition ret {A} (a : A) : Eff A := ([], Some a).

Definition throw {A} : Eff A := ([], None).

Definition bind {A B} (m : Eff A) (k : A -> Eff B) : Eff B :=
  match m with
  | (acts, Some a) => let '(acts', r) := k a in (acts ++ acts', r)
  | (acts, None) => (acts, None)
  end.

Notation "m1 >> m2" := (bind m1 (fun _ => m2))
  (at level 65, right associativity).

Definition skip : Eff unit := ret tt.

Definition dispatch (a : Action) : Eff unit := ([a], Some tt).

(** [l.forEach(f)] *)
Fixpoint forEach {A} (l : list A) (f : A -> Eff unit) : Eff unit :=
  match l with
  | [] => skip
  | x :: l' => f x >> forEach l' f
  end.

Definition dispatched {A} (m : Eff A) : list Action := fst m.

Definition completes {A} (m : Eff A) : Prop := is_Some (snd m).

(** The store after the actions of [m] went through the reducer. *)
Definition exec {A} (m : Eff A) (state : GameState) : GameState :=
  fold_left gameReducer (dispatched m) state.

(** ** The collaborators

    What the clock, the random generator and the narration service give
    to one run of a handler: [uid k] is the [Date.now().toString() +
    Math.random()] of its [k]-th log line, [narration] the text that
    [generateHostNarration] resolves to, and [randomBelow k n] the
    [Math.floor(Math.random() * n)] of its [k]-th draw. *)
Record Oracle := {
  uid : nat -> string;
  narration : string;
  randomBelow : nat -> nat -> nat
}.

(** [Math.random()] is below 1, so a draw over [n > 0] is an index below [n]. *)
Definition fair (o : Oracle) : Prop :=
  forall k n, 0 < n -> randomBelow o k n < n.

(** [addLog(text, sender = '系統', type = 'normal')], the [k]-th of the run. *)
Definition addLog (o : Oracle) (k : nat) (text sender : string) (type : LogType)
  : Eff unit :=
  dispatch (ADD_LOG {| LogMessage.id := uid o k; LogMessage.sender := sender;
                       LogMessage.text := text; LogMessage.type := type |}).

Definition getHumanPlayer (state : GameState) : option Player :=
  find (id_is (humanPlayerId state)) (players state).

(** [state.players.find(p => p.id === x)?.name] inside a template string. *)
Definition nameOf (state : GameState) (x : string) : string :=
  match find (fun p => String.eqb (id p) x) (players state) with
  | Some p => name p
  | None => "undefined"
  end.

(** What one call leaves behind: the dispatches of the call itself, and
    those it leaves to a timer or to the continuation of an [await], in the
    order they are issued. *)
Record Run := { immediate : Eff unit; afterwards : Eff unit }.

(** ** The object literals of the [UPDATE_PLAYER] actions *)

(** [{ isDying: false, isProtected: false, isPoisoned: false, voteTargetId: null }] *)
Definition nightReset : PartialPlayer :=
  {| upd_id := None; upd_name := None; upd_role := None; upd_isBot := None;
     upd_isAlive := None; upd_isDying := Some false; upd_isProtected := Some false;
     upd_isPoisoned := Some false; upd_hasActed := None;
     upd_voteTargetId := Some None; upd_avatarUrl := None |}.

(** [{ isAlive: false }] *)
Definition notAlive : PartialPlayer :=
  {| upd_id := None; upd_name := None; upd_role := None; upd_isBot := None;
     upd_isAlive := Some false; upd_isDying := None; upd_isProtected := None;
     upd_isPoisoned := None; upd_hasActed := None; upd_voteTargetId := None;
     upd_avatarUrl := None |}.

(** [{ isDying: true }] *)
Definition dying : PartialPlayer :=
  {| upd_id := None; upd_name := None; upd_role := None; upd_isBot := None;
     upd_isAlive := None; upd_isDying := Some true; upd_isProtected := None;
     upd_isPoisoned := None; upd_hasActed := None; upd_voteTargetId := None;
     upd_avatarUrl := None |}.

(** [{ isDying: false, isProtected: true }] *)
Definition saved : PartialPlayer :=
  {| upd_id := None; upd_name := None; upd_role := None; upd_isBot := None;
     upd_isAlive := None; upd_isDying := Some false; upd_isProtected := Some true;
     upd_isPoisoned := None; upd_hasActed := None; upd_voteTargetId := None;
     upd_avatarUrl := None |}.

(** [{ isPoisoned: true }] *)
Definition poisoned : PartialPlayer :=
  {| upd_id := None; upd_name := None; upd_role := None; upd_isBot := None;
     upd_isAlive := None; upd_isDying := None; upd_isProtected := None;
     upd_isPoisoned := Some true; upd_hasActed := None; upd_voteTargetId := None;
     upd_avatarUrl := None |}.

(** [{ voteTargetId: x }] *)
Definition votesFor (x : string) : PartialPlayer :=
  {| upd_id := None; upd_name := None; upd_role := None; upd_isBot := None;
     upd_isAlive := None; upd_isDying := None; upd_isProtected := None;
     upd_isPoisoned := None; upd_hasActed := None; upd_voteTargetId := Some (Some x);
     upd_avatarUrl := None |}.

(** ** Action handlers (bots) *)

(** [state.players.filter(p => p.isAlive && p.role !== Role.WEREWOLF)] *)
Definition aliveGoodPlayers (state : GameState) : list Player :=
  List.filter (fun p => isAlive p && negb (Role_eqb (role p) WEREWOLF)) (players state).

(** [state.players.filter(p => p.isAlive && p.role === Role.WEREWOLF)] *)
Definition aliveWolfPlayers (state : GameState) : list Player :=
  List.filter (fun p => isAlive p && Role_eqb (role p) WEREWOLF) (players state).

Definition handleBotWerewolfAction (o : Oracle) (state : GameState) : Eff unit :=
  let aliveGood := aliveGoodPlayers state in
  if 0 <? length aliveGood then
    match aliveGood !! randomBelow o 0 (length aliveGood) with
    | Some target =>
        dispatch (SET_LAST_KILLED (Some (id target))) >>
        dispatch (UPDATE_PLAYER (id target) dying)
    | None => throw
    end
  else skip.

(** Both bodies are empty in the source. *)
Definition handleBotSeerAction : Eff unit := skip.
Definition handleBotWitchAction : Eff unit := skip.

(** [alive.forEach(bot => ...)], the draw of the [k]-th player of the loop
    being the [k]-th of the run. *)
Fixpoint botVotes (o : Oracle) (alive : list Player) (k : nat) (rest : list Player)
  : Eff unit :=
  match rest with
  | [] => skip
  | bot :: rest' =>
      (if isBot bot then
         let others := List.filter (fun p => negb (String.eqb (id p) (id bot))) alive in
         if 0 <? length others then
           match others !! randomBelow o k (length others) with
           | Some target => dispatch (UPDATE_PLAYER (id bot) (votesFor (id target)))
           | None => throw
           end
         else skip
       else skip) >>
      botVotes o alive (S k) rest'
  end.

Definition handleBotVoting (o : Oracle) (state : GameState) : Eff unit :=
  let alive := List.filter isAlive (players state) in
  botVotes o alive 0 alive.

(** ** Game logic / phase effects *)

(** [(p.isDying && !p.isProtected) || p.isPoisoned] *)
Definition diesTonight (p : Player) : bool :=
  (isDying p && negb (isProtected p)) || isPoisoned p.

(** [votes: Record<string, number>], its keys in insertion order, which is
    the order of [Object.entries] for keys that are not array indices (a
    player id is [p-<seat>]).  [addVote x votes] is
    [votes[x] = (votes[x] || 0) + 1]. *)
Fixpoint addVote (x : string) (votes : list (string * nat)) : list (string * nat) :=
  match votes with
  | [] => [(x, 0 + 1)]
  | (k, n) :: rest =>
      if String.eqb k x then (k, n + 1) :: rest else (k, n) :: addVote x rest
  end.

(** [if (p.voteTargetId) { votes[p.voteTargetId] = ... }] *)
Definition castVote (votes : list (string * nat)) (p : Player) : list (string * nat) :=
  if truthy (voteTargetId p)
  then match voteTargetId p with
       | Some x => addVote x votes
       | None => votes
       end
  else votes.

(** [state.players.filter(p => p.isAlive).forEach(p => ...)] *)
Definition countVotes (state : GameState) : list (string * nat) :=
  fold_left castVote (List.filter isAlive (players state)) [].

(** The three locals of the tally loop. *)
Record Tally := { maxVotes : nat; victimId : option string; tie : bool }.

Definition tallyStep (t : Tally) (entry : string * nat) : Tally :=
  let '(x, count) := entry in
  if maxVotes t <? count then
    {| maxVotes := count; victimId := Some x; tie := false |}
  else if count =? maxVotes t then
    {| maxVotes := maxVotes t; victimId := victimId t; tie := true |}
  else t.

Definition tally (votes : list (string * nat)) : Tally :=
  fold_left tallyStep votes {| maxVotes := 0; victimId := None; tie := false |}.

(** The two counts of the win check. *)
Definition aliveWolves (state : GameState) : nat := length (aliveWolfPlayers state).

Definition aliveGood (state : GameState) : nat := length (aliveGoodPlayers state).

(** The outcome of the win check that opens [runPhaseLogic]: the winner
    that it announces before it returns, if any. *)
Definition winCheck (state : GameState) : option Winner :=
  if negb (GamePhase_eqb (phase state) SETUP)
     && negb (GamePhase_eqb (phase state) GAME_OVER)
  then
    if aliveWolves state =? 0 then Some VILLAGER_wins
    else if aliveGood state <=? aliveWolves state then Some WEREWOLF_wins
    else None
  else None.

(** [human?.role !== r || !human.isAlive] *)
Definition notHumansTurn (human : option Player) (r : Role) : bool :=
  match human with
  | Some h => negb (Role_eqb (role h) r) || negb (isAlive h)
  | None => true
  end.

(** The [switch (state.phase)] of [runPhaseLogic]. *)
Definition phaseTransitions (o : Oracle) (state : GameState) : Run :=
  match phase state with
  | NIGHT_START =>
      {| immediate :=
           forEach (players state)
             (fun p => dispatch (UPDATE_PLAYER (id p) nightReset)) >>
           dispatch (SET_LAST_KILLED None);
         afterwards :=
           addLog o 0 (narration o) "HOST" narrative >>
           dispatch (NEXT_PHASE NIGHT_WEREWOLF) |}
  | NIGHT_WEREWOLF =>
      {| immediate := addLog o 0 "狼人請睜眼，請選擇今晚的獵物。" "系統" normal;
         afterwards :=
           if notHumansTurn (getHumanPlayer state) WEREWOLF
           then handleBotWerewolfAction o state >> dispatch (NEXT_PHASE NIGHT_SEER)
           else skip |}
  | NIGHT_SEER =>
      {| immediate := addLog o 0 "預言家請睜眼，請選擇查驗對象。" "系統" normal;
         afterwards :=
           if notHumansTurn (getHumanPlayer state) SEER
           then handleBotSeerAction >> dispatch (NEXT_PHASE NIGHT_WITCH)
           else skip |}
  | NIGHT_WITCH =>
      {| immediate := addLog o 0 "女巫請睜眼。" "系統" normal;
         afterwards :=
           if notHumansTurn (getHumanPlayer state) WITCH
           then handleBotWitchAction >> dispatch (NEXT_PHASE NIGHT_END)
           else skip |}
  | NIGHT_END =>
      {| immediate :=
           forEach (players state)
             (fun p => if diesTonight p
                       then dispatch (UPDATE_PLAYER (id p) notAlive)
                       else skip) >>
           dispatch (NEXT_PHASE DAY_ANNOUNCE);
         afterwards := skip |}
  | DAY_ANNOUNCE =>
      {| immediate := skip;
         afterwards :=
           addLog o 0 (narration o) "HOST" narrative >>
           dispatch (NEXT_PHASE DAY_DISCUSS) |}
  | DAY_DISCUSS =>
      {| immediate :=
           addLog o 0 "現在開始自由討論。你可以通過聊天框與其他玩家互動。" "系統" normal;
         afterwards := skip |}
  | DAY_VOTE =>
      let humanIsDead :=
        match getHumanPlayer state with
        | Some human => negb (isAlive human)
        | None => false
        end in
      {| immediate :=
           addLog o 0 "請所有玩家進行投票。" "系統" alert >>
           handleBotVoting o state >>
           (if humanIsDead
            then addLog o 1 "你已死亡，正在觀戰投票結果..." "系統" normal
            else skip);
         afterwards :=
           if humanIsDead then dispatch (NEXT_PHASE DAY_EXECUTE) else skip |}
  | DAY_EXECUTE =>
      let t := tally (countVotes state) in
      {| immediate :=
           if truthy (victimId t) && negb (tie t) then
             match find (id_is (victimId t)) (players state) with
             | Some victim =>
                 addLog o 0 (name victim +:+ " 被投票處決了。") "系統" alert >>
                 dispatch (UPDATE_PLAYER (id victim) notAlive)
             | None => skip
             end
           else addLog o 0 "票數平手，無人被處決。" "系統" normal;
         afterwards :=
           dispatch INCREMENT_DAY >> dispatch (NEXT_PHASE NIGHT_START) |}
  | SETUP | GAME_OVER => {| immediate := skip; afterwards := skip |}
  end.

(** The announcement of a winner, which returns before the [switch]. *)
Definition announce (o : Oracle) (w : Winner) : Run :=
  {| immediate :=
       dispatch (SET_WINNER w) >>
       dispatch (NEXT_PHASE GAME_OVER) >>
       addLog o 0
         (match w with
          | VILLAGER_wins => "狼人全滅，好人勝利！"
          | WEREWOLF_wins => "狼人數量大於等於好人，狼人勝利！"
          end) "系統" alert;
     afterwards := addLog o 1 (narration o) "HOST" narrative |}.

Definition runPhaseLogic (o : Oracle) (state : GameState) : Run :=
  match winCheck state with
  | Some w => announce o w
  | None => phaseTransitions o state
  end.

(** ** Action handlers (human)

    [selectedTargetId] is the component's own piece of state; the handlers
    read it and reset it to [null] once they are done with it. *)

(** The human is to act in this phase. *)
Definition isHumanTurn (state : GameState) : bool :=
  match getHumanPlayer state with
  | Some human =>
      (GamePhase_eqb (phase state) NIGHT_WEREWOLF
         && Role_eqb (role human) WEREWOLF && isAlive human)
      || (GamePhase_eqb (phase state) NIGHT_SEER
            && Role_eqb (role human) SEER && isAlive human)
      || (GamePhase_eqb (phase state) NIGHT_WITCH
            && Role_eqb (role human) WITCH && isAlive human)
      || (GamePhase_eqb (phase state) DAY_VOTE && isAlive human)
  | None => false
  end.

(** The [onClick] of a player card: the new [selectedTargetId]. *)
Definition onPlayerClick (state : GameState) (player : Player)
    (selectedTargetId : option string) : option string :=
  let notTheHuman :=
    match getHumanPlayer state with
    | Some human => negb (String.eqb (id player) (id human))
    | None => true
    end in
  if isHumanTurn state && isAlive player && notTheHuman
  then Some (id player)
  else selectedTargetId.

Definition handleHumanAction (o : Oracle) (selectedTargetId : option string)
    (state : GameState) : Run :=
  let nothing := {| immediate := skip; afterwards := skip |} in
  match getHumanPlayer state with
  | None => nothing
  | Some human =>
      if negb (isAlive human) then nothing
      else if negb (truthy selectedTargetId)
              && negb (GamePhase_eqb (phase state) DAY_DISCUSS) then nothing
      else if GamePhase_eqb (phase state) NIGHT_WEREWOLF
              && Role_eqb (role human) WEREWOLF then
        match selectedTargetId with
        | Some sel =>
            if truthy selectedTargetId then
              {| immediate :=
                   dispatch (SET_LAST_KILLED (Some sel)) >>
                   dispatch (UPDATE_PLAYER sel dying) >>
                   addLog o 0 ("你襲擊了 " +:+ nameOf state sel) "系統" normal >>
                   dispatch (NEXT_PHASE NIGHT_SEER);
                 afterwards := skip |}
            else nothing
        | None => nothing
        end
      else if GamePhase_eqb (phase state) NIGHT_SEER
              && Role_eqb (role human) SEER then
        match selectedTargetId with
        | Some sel =>
            if truthy selectedTargetId then
              {| immediate :=
                   match find (fun p => String.eqb (id p) sel) (players state) with
                   | Some target =>
                       let isWolf := Role_eqb (role target) WEREWOLF in
                       dispatch (SET_SEER_RESULT
                                   (Some {| SeerResult.name := name target;
                                            SeerResult.isWerewolf := isWolf |})) >>
                       addLog o 0
                         (name target +:+ " 是 " +:+ (if isWolf then "狼人" else "好人"))
                         "查驗結果" normal
                   | None => skip
                   end;
                 afterwards := dispatch (NEXT_PHASE NIGHT_WITCH) |}
            else nothing
        | None => nothing
        end
      else if GamePhase_eqb (phase state) DAY_VOTE then
        match selectedTargetId with
        | Some sel =>
            if truthy selectedTargetId then
              {| immediate :=
                   dispatch (UPDATE_PLAYER (id human) (votesFor sel)) >>
                   addLog o 0 ("你投票給了 " +:+ nameOf state sel) "系統" normal >>
                   dispatch (NEXT_PHASE DAY_EXECUTE);
                 afterwards := skip |}
            else nothing
        | None => nothing
        end
      else nothing
  end.

Definition handleWitchSave (o : Oracle) (state : GameState) : Eff unit :=
  match lastKilledId state with
  | Some killed =>
      if truthy (lastKilledId state) && save (witchPotions state) then
        dispatch (UPDATE_PLAYER killed saved) >>
        dispatch (SET_WITCH_POTION save_potion true) >>
        addLog o 0 "你使用了解藥。" "系統" normal
      else skip
  | None => skip
  end.

Definition handleWitchPoison (o : Oracle) (selectedTargetId : option string)
    (state : GameState) : Eff unit :=
  match selectedTargetId with
  | Some sel =>
      if truthy selectedTargetId && poison (witchPotions state) then
        dispatch (UPDATE_PLAYER sel poisoned) >>
        dispatch (SET_WITCH_POTION poison_potion true) >>
        addLog o 0 "你使用了毒藥。" "系統" normal >>
        dispatch (NEXT_PHASE NIGHT_END)
      else skip
  | None => skip
  end.

Definition skipPhase (state : GameState) : Eff unit :=
  (if GamePhase_eqb (phase state) NIGHT_WITCH
   then dispatch (NEXT_PHASE NIGHT_END) else skip) >>
  (if GamePhase_eqb (phase state) DAY_DISCUSS
   then dispatch (NEXT_PHASE DAY_VOTE) else skip).

(** [handleSendChat], on the trimmed message [msgText]; [botResponse] is
    what [generateBotResponseToUser] resolves to (speaker and content), if
    anything. *)
Definition handleSendChat (o : Oracle) (msgText : string) (isSendingChat : bool)
    (botResponse : option (string * string)) (state : GameState) : Run :=
  let nothing := {| immediate := skip; afterwards := skip |} in
  if String.eqb msgText "" || isSendingChat then nothing
  else
    match getHumanPlayer state with
    | None => nothing
    | Some human =>
        {| immediate := addLog o 0 msgText (name human) normal;
           afterwards :=
             match botResponse with
             | Some (speaker, content) => addLog o 1 content speaker normal
             | None => skip
             end |}
    end.

(** The timer of the discussion: one bot line, if the phase is still
    [DAY_DISCUSS] and [generateBotDiscussion] resolved to one. *)
Definition runAutoDiscussion (o : Oracle) (msg : option (string * string))
    (state : GameState) : Eff unit :=
  if negb (GamePhase_eqb (phase state) DAY_DISCUSS) then skip
  else
    match msg with
    | Some (speaker, content) => addLog o 0 content speaker normal
    | None => skip
    end.

(** ** Starting a game *)

(** Modelled from the spec: the ConfigurationError that the role
    distribution fails with on a player count out of range. *)
Inductive ConfigurationError := PlayerCountOutOfRange (playerCount : nat).

(** Modelled from the spec: one row of the count table of the role
    distribution, the roles whose number depends on the band of the player
    count. *)
Record RoleCounts := { werewolves : nat; hunters : nat }.

(** Modelled from the spec: [getRoleDistribution], of [constants.ts], is not
    among the sources.  The specification gives its contract,
    [distribution(playerCount) -> sequence of Role]: the counts come from a
    fixed table keyed on bands of the player count ([roleTable], which the
    specification does not list), a game has exactly one SEER and one WITCH,
    villagers fill the remainder, and a player count outside [6, 18] fails
    with a ConfigurationError. *)
Definition distribution (roleTable : nat -> RoleCounts) (playerCount : nat)
  : ConfigurationError + list Role :=
  if (6 <=? playerCount) && (playerCount <=? 18) then
    let row := roleTable playerCount in
    inr (repeat WEREWOLF (werewolves row)
         ++ [SEER; WITCH]
         ++ repeat HUNTER (hunters row)
         ++ repeat VILLAGER (playerCount - (werewolves row + 2 + hunters row)))
  else inl (PlayerCountOutOfRange playerCount).

(** [[roles[i], roles[j]] = [roles[j], roles[i]]].  Both indices are in
    range when the draw is one of [Math.random]; [None] is the array with
    an [undefined] entry that an index out of range would leave, which is
    no list of roles. *)
Definition swap (i j : nat) (roles : list Role) : option (list Role) :=
  match roles !! i, roles !! j with
  | Some a, Some b => Some (<[j := a]> (<[i := b]> roles))
  | _, _ => None
  end.

(** The loop [for (let i = roles.length - 1; i > 0; i--)], from [i] down,
    with [j = Math.floor(Math.random() * (i + 1))] the [k]-th draw. *)
Fixpoint shuffleFrom (o : Oracle) (k i : nat) (roles : list Role)
  : option (list Role) :=
  match i with
  | 0 => Some roles
  | S i' =>
      match swap i (randomBelow o k (i + 1)) roles with
      | Some roles' => shuffleFrom o (S k) i' roles'
      | None => None
      end
  end.

Definition shuffle (o : Oracle) (roles : list Role) : option (list Role) :=
  shuffleFrom o 0 (length roles - 1) roles.

(** [`p-${idx}`] *)
Definition seatId (idx : nat) : string := "p-" +:+ pretty idx.

(** The player of seat [idx]; [None] when [roles[idx]] is [undefined]. *)
Definition newPlayer (setupName selectedAvatar : string)
    (shuffledNames : list string) (botAvatar : nat -> string)
    (roles : list Role) (idx : nat) : option Player :=
  let isHuman := idx =? 0 in
  let botName :=
    match (if isHuman then None else shuffledNames !! (idx - 1)) with
    | Some n => if String.eqb n "" then "Bot " +:+ pretty idx else n
    | None => "Bot " +:+ pretty idx
    end in
  match roles !! idx with
  | Some r =>
      Some {| id := seatId idx;
              name := if isHuman then setupName else botName;
              role := r;
              isBot := negb isHuman;
              isAlive := true;
              isDying := false;
              isProtected := false;
              isPoisoned := false;
              hasActed := false;
              voteTargetId := None;
              avatarUrl := if isHuman then selectedAvatar else botAvatar idx |}
  | None => None
  end.

(** [handleStartGame].  [trimmedName] is [setupName.trim()],
    [shuffledNames] the shuffled copy of [BOT_NAMES] and [botAvatar idx] the
    [generateAvatarUrl(...)] of seat [idx], whose definitions are in
    [constants.ts].  It throws when [getRoleDistribution] does, and the run
    is outside this model ([None] as well) when the roles are not
    [setupCount] roles. *)
Definition handleStartGame (roleTable : nat -> RoleCounts) (o : Oracle)
    (setupName trimmedName selectedAvatar : string) (setupCount : nat)
    (shuffledNames : list string) (botAvatar : nat -> string) : Eff unit :=
  if String.eqb trimmedName "" then skip
  else
    match distribution roleTable setupCount with
    | inl _ => throw
    | inr roles =>
        match shuffle o roles with
        | Some roles' =>
            match mapM (newPlayer setupName selectedAvatar shuffledNames
                          botAvatar roles') (seq 0 setupCount) with
            | Some (human :: others) =>
                dispatch (START_GAME (human :: others) (id human))
            | _ => throw
            end
        | None => throw
        end
    end.

(** ** App.tsx: what the page shows *)

(** [newlyDead] of the [DAY_ANNOUNCE] case: the players whose names go to
    the narration of the morning. *)
Definition newlyDead (state : GameState) : list Player :=
  List.filter (fun p => negb (isAlive p) && (isDying p || isPoisoned p))
    (players state).

(** The buttons of the action bar, by their [onClick]: [handleHumanAction],
    [handleWitchSave], [handleWitchPoison], and the two of [skipPhase]. *)
Inductive Control := confirmAction | useSave | usePoison | callVote | doNothing.

(** The button is rendered, and not [disabled]. *)
Definition enabled (state : GameState) (selectedTargetId : option string)
    (c : Control) : bool :=
  match c with
  | confirmAction => isHumanTurn state && truthy selectedTargetId
  | useSave =>
      isHumanTurn state && GamePhase_eqb (phase state) NIGHT_WITCH
      && truthy (lastKilledId state) && save (witchPotions state)
  | usePoison =>
      isHumanTurn state && GamePhase_eqb (phase state) NIGHT_WITCH
      && (truthy selectedTargetId && poison (witchPotions state))
  | callVote => GamePhase_eqb (phase state) DAY_DISCUSS
  | doNothing => GamePhase_eqb (phase state) NIGHT_WITCH && isHumanTurn state
  end.

(** What a click on the button runs. *)
Definition onClick (o : Oracle) (selectedTargetId : option string)
    (state : GameState) (c : Control) : Run :=
  match c with
  | confirmAction => handleHumanAction o selectedTargetId state
  | useSave => {| immediate := handleWitchSave o state; afterwards := skip |}
  | usePoison =>
      {| immediate := handleWitchPoison o selectedTargetId state;
         afterwards := skip |}
  | callVote | doNothing => {| immediate := skipPhase state; afterwards := skip |}
  end.

(** ** services/geminiService.ts

    The language model is a collaborator: [reply] is what one call of
    [generateContent] comes to, [None] when it throws and [Some text] with
    the [response.text] it resolves to ([None] for [undefined]).  The
    prompts, and with them the roster and the log that only the prompts
    use, only reach the model and are left out; [apiKey] is
    [process.env.API_KEY]. *)

(** [names.join(sep)] *)
Fixpoint join (sep : string) (names : list string) : string :=
  match names with
  | [] => ""
  | [x] => x
  | x :: rest => x +:+ sep +:+ join sep rest
  end.

Definition getDefaultNarration (ph : GamePhase) (day : nat)
    (deadNames : list string) : string :=
  match ph with
  | NIGHT_START => "第 " +:+ pretty day +:+ " 夜。天黑請閉眼，狼人請現身..."
  | DAY_ANNOUNCE =>
      if 0 <? length deadNames
      then "天亮了。昨晚 " +:+ join ", " deadNames +:+ " 死亡。"
      else "天亮了。昨晚是平安夜。"
  | GAME_OVER => "遊戲結束。"
  | _ => ""
  end.

(** [text || fallback] on a [string | undefined]. *)
Definition orElse (text : option string) (fallback : string) : string :=
  match text with
  | Some t => if truthy text then t else fallback
  | None => fallback
  end.

Definition generateHostNarration (apiKey : option string)
    (reply : option (option string)) (ph : GamePhase) (day : nat)
    (deadNames : list string) : string :=
  if negb (truthy apiKey) then getDefaultNarration ph day deadNames
  else
    match ph with
    | NIGHT_START | DAY_ANNOUNCE | GAME_OVER =>
        match reply with
        | Some text => orElse text (getDefaultNarration ph day deadNames)
        | None => getDefaultNarration ph day deadNames
        end
    | _ => ""
    end.

(** [players.filter(p => p.isBot && p.isAlive)] *)
Definition aliveBots (ps : list Player) : list Player :=
  List.filter (fun p => isBot p && isAlive p) ps.

(** The speaker and the content of a bot's line, or [null]; the run throws
    when the draw is no index of [aliveBots]. *)
Definition generateBotDiscussion (apiKey : option string) (o : Oracle)
    (reply : option (option string)) (ps : list Player)
  : Eff (option (string * string)) :=
  if negb (truthy apiKey) then ret None
  else if length (aliveBots ps) =? 0 then ret None
  else
    match aliveBots ps !! randomBelow o 0 (length (aliveBots ps)) with
    | Some speaker =>
        match reply with
        | Some text => ret (Some (name speaker, orElse text "我覺得有點可疑..."))
        | None => ret (Some (name speaker, "大家安靜一下，我有種不祥的預感。"))
        end
    | None => throw
    end.

Definition generateBotResponseToUser (apiKey : option string) (o : Oracle)
    (reply : option (option string)) (ps : list Player)
  : Eff (option (string * string)) :=
  if negb (truthy apiKey) then ret None
  else if length (aliveBots ps) =? 0 then ret None
  else
    match aliveBots ps !! randomBelow o 0 (length (aliveBots ps)) with
    | Some speaker =>
        match reply with
        | Some text => ret (Some (name speaker, orElse text "真的嗎？我再觀察看看。"))
        | None => ret None
        end
    | None => throw
    end.

(** ** App.tsx with the service

    The calls of the service as the component makes them. *)

(** The narration that [runPhaseLogic] awaits in [state]: the
    [generateHostNarration(...)] of the announcement of a winner, of
    [NIGHT_START] and of [DAY_ANNOUNCE]; the other phases ask for none. *)
Definition hostNarration (apiKey : option string) (reply : option (option string))
    (state : GameState) : string :=
  match winCheck state with
  | Some _ => generateHostNarration apiKey reply GAME_OVER (dayCount state) []
  | None =>
      match phase state with
      | NIGHT_START =>
          generateHostNarration apiKey reply NIGHT_START (dayCount state) []
      | DAY_ANNOUNCE =>
          generateHostNarration apiKey reply DAY_ANNOUNCE (dayCount state)
            (map name (newlyDead state))
      | _ => ""
      end
  end.

(** The collaborators of [o], the narration being that of the service. *)
Definition served (apiKey : option string) (reply : option (option string))
    (state : GameState) (o : Oracle) : Oracle :=
  {| uid := uid o;
     narration := hostNarration apiKey reply state;
     randomBelow := randomBelow o |}.

(** The timer of [runAutoDiscussion] with its call of
    [generateBotDiscussion(state.players, state.logs)]: a throw of the call
    leaves the promise of the timer rejected, and nothing dispatched. *)
Definition discussionTimer (apiKey : option string) (o : Oracle)
    (reply : option (option string)) (state : GameState) : Eff unit :=
  if negb (GamePhase_eqb (phase state) DAY_DISCUSS) then skip
  else
    bind (generateBotDiscussion apiKey o reply (players state))
         (fun msg => runAutoDiscussion o msg state).

(** [handleSendChat] with its call of [generateBotResponseToUser], whose
    throw is caught: no reply then. *)
Definition chatReply (apiKey : option string) (o : Oracle)
    (reply : option (option string)) (state : GameState)
  : option (string * string) :=
  match generateBotResponseToUser apiKey o reply (players state) with
  | (_, Some botResponse) => botResponse
  | (_, None) => None
  end.

(** * Vocabulary of the statements *)

(** ** Players and rosters *)

(** A player with one flag set, the rest as it was. *)
Definition set_isAlive (b : bool) (p : Player) : Player :=
  {| id := id p; name := name p; role := role p; isBot := isBot p;
     isAlive := b; isDying := isDying p; isProtected := isProtected p;
     isPoisoned := isPoisoned p; hasActed := hasActed p;
     voteTargetId := voteTargetId p; avatarUrl := avatarUrl p |}.

Definition set_isPoisoned (b : bool) (p : Player) : Player :=
  {| id := id p; name := name p; role := role p; isBot := isBot p;
     isAlive := isAlive p; isDying := isDying p; isProtected := isProtected p;
     isPoisoned := b; hasActed := hasActed p;
     voteTargetId := voteTargetId p; avatarUrl := avatarUrl p |}.

(** [isDying] and [isProtected] set together. *)
Definition set_marks (d pr : bool) (p : Player) : Player :=
  {| id := id p; name := name p; role := role p; isBot := isBot p;
     isAlive := isAlive p; isDying := d; isProtected := pr;
     isPoisoned := isPoisoned p; hasActed := hasActed p;
     voteTargetId := voteTargetId p; avatarUrl := avatarUrl p |}.

Definition set_isDying (b : bool) (p : Player) : Player :=
  set_marks b (isProtected p) p.

(** The flags of the night and the vote, neutral. *)
Definition neutral (p : Player) : Player :=
  {| id := id p; name := name p; role := role p; isBot := isBot p;
     isAlive := isAlive p; isDying := false; isProtected := false;
     isPoisoned := false; hasActed := hasActed p;
     voteTargetId := None; avatarUrl := avatarUrl p |}.

(** [f] on the players whose id is [x], the others as they are. *)
Definition onPlayer (x : string) (f : Player -> Player) (ps : list Player)
  : list Player :=
  map (fun p => if String.eqb (id p) x then f p else p) ps.

(** ** Examples *)

(** A player for the examples. *)
Definition seat (x : string) (r : Role) (alive d pr po : bool)
    (vote : option string) : Player :=
  {| id := x; name := x; role := r; isBot := negb (String.eqb x "p-0");
     isAlive := alive; isDying := d; isProtected := pr; isPoisoned := po;
     hasActed := false; voteTargetId := vote; avatarUrl := "" |}.

(** A state for the examples, seat [p-0] being the human. *)
Definition table (ph : GamePhase) (ps : list Player) (w : WitchPotions)
    (killed : option string) : GameState :=
  {| phase := ph; players := ps; humanPlayerId := Some "p-0"; dayCount := 1;
     logs := []; winner := None; witchPotions := w; lastKilledId := killed;
     seerCheckResult := None |}.

(** An oracle whose draws are all [0]. *)
Definition quiet : Oracle :=
  {| uid := fun _ => "0"; narration := ""; randomBelow := fun _ _ => 0 |}.

(** The witch's turn of the first night: seat 2 is the werewolves' victim. *)
Definition witchNight : GameState :=
  table NIGHT_WITCH
    [seat "p-0" WITCH true false false false None;
     seat "p-1" WEREWOLF true false false false None;
     seat "p-2" VILLAGER true true false false None;
     seat "p-3" SEER true false false false None]
    {| save := true; poison := true |} (Some "p-2").

(** A discussion, seat 2 dead, the poison unused. *)
Definition discussion : GameState :=
  table DAY_DISCUSS
    [seat "p-0" WITCH true false false false None;
     seat "p-1" WEREWOLF true false false false None;
     seat "p-2" VILLAGER false false false false None]
    {| save := false; poison := true |} None.

(** Two werewolves and two others alive, at the start of a night. *)
Definition evenNight : GameState :=
  table NIGHT_START
    [seat "p-0" VILLAGER true false false false None;
     seat "p-1" WEREWOLF true false false false None;
     seat "p-2" WEREWOLF true false false false None;
     seat "p-3" SEER true false false false None]
    {| save := true; poison := true |} None.

(** The start of a night, the marks and the votes of the day before still
    there. *)
Definition secondNight : GameState :=
  table NIGHT_START
    [seat "p-0" VILLAGER true false false false (Some "p-1");
     seat "p-1" WEREWOLF true false false false (Some "p-0");
     seat "p-2" WITCH true true true false (Some "p-1");
     seat "p-3" SEER false false false true None]
    {| save := false; poison := false |} (Some "p-2").

(** The end of a night: seat 0 dying, protected and poisoned, seat 2 dying
    and protected, seat 3 dying. *)
Definition nightOver : GameState :=
  table NIGHT_END
    [seat "p-0" VILLAGER true true true true None;
     seat "p-1" WEREWOLF true false false false None;
     seat "p-2" WITCH true true true false None;
     seat "p-3" SEER true true false false None;
     seat "p-4" VILLAGER true false false false None;
     seat "p-5" VILLAGER true false false false None]
    {| save := false; poison := false |} (Some "p-3").

(** A vote of two for seat 1, two for seat 2 and one for seat 3; seat 5
    abstains and seat 6 is dead. *)
Definition tiedVote : GameState :=
  table DAY_EXECUTE
    [seat "p-0" VILLAGER true false false false (Some "p-1");
     seat "p-1" WEREWOLF true false false false (Some "p-2");
     seat "p-2" WITCH true false false false (Some "p-1");
     seat "p-3" SEER true false false false (Some "p-2");
     seat "p-4" VILLAGER true false false false (Some "p-3");
     seat "p-5" VILLAGER true false false false None;
     seat "p-6" VILLAGER false false false false (Some "p-1")]
    {| save := true; poison := true |} None.

(** A vote of three for seat 1 and one for seat 2; seat 4 abstains and
    seat 5 is dead. *)
Definition decidedVote : GameState :=
  table DAY_EXECUTE
    [seat "p-0" VILLAGER true false false false (Some "p-1");
     seat "p-1" WEREWOLF true false false false (Some "p-2");
     seat "p-2" WITCH true false false false (Some "p-1");
     seat "p-3" SEER true false false false (Some "p-1");
     seat "p-4" VILLAGER true false false false None;
     seat "p-5" VILLAGER false false false false (Some "p-2")]
    {| save := true; poison := true |} None.

(** The werewolves' turn, the human being one of two werewolves. *)
Definition wolfPack : GameState :=
  table NIGHT_WEREWOLF
    [seat "p-0" WEREWOLF true false false false None;
     seat "p-1" WEREWOLF true false false false None;
     seat "p-2" SEER true false false false None;
     seat "p-3" WITCH true false false false None;
     seat "p-4" VILLAGER true false false false None;
     seat "p-5" VILLAGER true false false false None]
    {| save := true; poison := true |} None.

(** The human of [wolfPack] has selected seat 1 and confirmed. *)
Definition wolfPackBitten : GameState :=
  exec (immediate (handleHumanAction quiet (Some "p-1") wolfPack)) wolfPack.

(** ** The night and the day *)

(** The save is legal: a victim is recorded and the potion is there. *)
Definition saveLegal (state : GameState) : Prop :=
  is_Some (lastKilledId state) /\ save (witchPotions state) = true.

(** Some player of [qs] has the id of [p]. *)
Definition namesakeIn (qs : list Player) (p : Player) : bool :=
  existsb (fun q => String.eqb (id p) (id q)) qs.

(** What a run that only announces [w] leaves: the winner and the phase
    set, one log line added, the roster and everything else as it was. *)
Definition announced (o : Oracle) (w : Winner) (state : GameState) : Prop :=
  let state' := exec (immediate (runPhaseLogic o state)) state in
  runPhaseLogic o state = announce o w /\
  (exists line,
     dispatched (immediate (runPhaseLogic o state))
     = [SET_WINNER w; NEXT_PHASE GAME_OVER; ADD_LOG line]) /\
  winner state' = Some w /\
  phase state' = GAME_OVER /\
  players state' = players state /\
  witchPotions state' = witchPotions state /\
  lastKilledId state' = lastKilledId state /\
  dayCount state' = dayCount state.

(** [votes[x] || 0] *)
Definition count_of (x : string) (votes : list (string * nat)) : nat :=
  match find (fun e => String.eqb (fst e) x) votes with
  | Some e => snd e
  | None => 0
  end.

(** Every entry of the tally has a vote. *)
Definition allPositive (votes : list (string * nat)) : Prop :=
  Forall (fun e => 0 < snd e) votes.

(** The votes of the players of [ps] that the loop counts for [x]. *)
Definition counted (x : string) (ps : list Player) : nat :=
  length (List.filter
            (fun p => truthy (voteTargetId p)
                      && bool_decide (voteTargetId p = Some x)) ps).

(** The alive players whose [voteTargetId] is [x]. *)
Definition votesCast (state : GameState) (x : string) : nat :=
  length (List.filter
            (fun p => isAlive p && bool_decide (voteTargetId p = Some x))
            (players state)).

(** No alive player's vote is the empty string (an id never is), which the
    loop would take for [null]. *)
Definition votesWellFormed (state : GameState) : Prop :=
  forall p, In p (players state) -> isAlive p = true -> voteTargetId p <> Some "".

(** ** A game as a sequence of stores *)

(** [inGame s0 m]: [m] is the run of a handler set up in the render of
    the state [s0], while a game is on: everything the component can
    dispatch but the start of a game and its reset. *)
Inductive inGame : GameState -> Eff unit -> Prop :=
  | phase_now o s0 : inGame s0 (immediate (runPhaseLogic o s0))
  | phase_later o s0 : inGame s0 (afterwards (runPhaseLogic o s0))
  | human_now o sel s0 : inGame s0 (immediate (handleHumanAction o sel s0))
  | human_later o sel s0 : inGame s0 (afterwards (handleHumanAction o sel s0))
  | witch_save o s0 : inGame s0 (handleWitchSave o s0)
  | witch_poison o sel s0 : inGame s0 (handleWitchPoison o sel s0)
  | skip_phase s0 : inGame s0 (skipPhase s0)
  | chat_now o msg busy reply s0 :
      inGame s0 (immediate (handleSendChat o msg busy reply s0))
  | chat_later o msg busy reply s0 :
      inGame s0 (afterwards (handleSendChat o msg busy reply s0))
  | auto_discussion o msg s0 : inGame s0 (runAutoDiscussion o msg s0).

(** One action of such a run reaches the store.  The run may have been set
    up from the state of an earlier render (a timer, the continuation of an
    [await]), so the action applies to whatever the store holds by then. *)
Definition step (s s' : GameState) : Prop :=
  exists s0 m a, inGame s0 m /\ In a (dispatched m) /\ s' = gameReducer s a.

(** [steps s s']: [s'] is the store some actions after [s], in one game. *)
Inductive steps : GameState -> GameState -> Prop :=
  | steps_refl s : steps s s
  | steps_step s s' s'' : step s s' -> steps s' s'' -> steps s s''.

(** The successive stores of one game. *)
Inductive path : list GameState -> Prop :=
  | path_one s : path [s]
  | path_cons s s' l : step s s' -> path (s' :: l) -> path (s :: s' :: l).

(** How many times [f] goes from true to false along [l]. *)
Fixpoint drops (f : GameState -> bool) (l : list GameState) : nat :=
  match l with
  | s :: (s' :: _) as l' => (if f s && negb (f s') then 1 else 0) + drops f l'
  | _ => 0
  end.

(** The potion is unused. *)
Definition saveLeft (s : GameState) : bool := save (witchPotions s).

Definition poisonLeft (s : GameState) : bool := poison (witchPotions s).

(** The actions that neither start nor reset a game nor hand a potion back. *)
Definition tame (a : Action) : Prop :=
  match a with
  | START_GAME _ _ | RESET_GAME | SET_WITCH_POTION _ false => False
  | _ => True
  end.

(** Every action of the run is tame. *)
Definition allTame {A} (m : Eff A) : Prop := Forall tame (dispatched m).

(** The ids of the roster are distinct and none is empty, and so are the
    ids that the votes and [lastKilledId] hold. *)
Definition wellFormed (s : GameState) : Prop :=
  NoDup (map id (players s)) /\
  (forall p, In p (players s) -> id p <> "") /\
  (forall p, In p (players s) -> voteTargetId p <> Some "") /\
  lastKilledId s <> Some "".

(** The actions that keep a roster well formed. *)
Definition clean (a : Action) : Prop :=
  match a with
  | START_GAME _ _ | RESET_GAME => False
  | UPDATE_PLAYER _ u => upd_id u = None /\ upd_voteTargetId u <> Some (Some "")
  | SET_LAST_KILLED k => k <> Some ""
  | _ => True
  end.

(** Every action of the run is clean. *)
Definition allClean {A} (m : Eff A) : Prop := Forall clean (dispatched m).

(** A state of the component: after the start of a game, after its reset,
    and after an action of a handler set up in an earlier such state. *)
Inductive reachable : GameState -> Prop :=
  | reach_initial : reachable initialState
  | reach_start roleTable o setupName trimmedName avatar setupCount names
      botAvatar newPlayers humanId s :
      In (START_GAME newPlayers humanId)
         (dispatched (handleStartGame roleTable o setupName trimmedName avatar
                        setupCount names botAvatar)) ->
      reachable s ->
      reachable (gameReducer s (START_GAME newPlayers humanId))
  | reach_reset s : reachable s -> reachable (gameReducer s RESET_GAME)
  | reach_step s0 s m a :
      reachable s0 -> reachable s -> inGame s0 m -> In a (dispatched m) ->
      reachable (gameReducer s a).

(** ** The count table *)

(** The row of the table for [playerCount] has a werewolf, and its fixed
    roles are no more than the players. *)
Definition rowFits (roleTable : nat -> RoleCounts) (playerCount : nat) : Prop :=
  1 <= werewolves (roleTable playerCount) /\
  werewolves (roleTable playerCount) + 2 + hunters (roleTable playerCount)
  <= playerCount.

(** A table of the specification's scenario: six players are one werewolf,
    a seer, a witch and three villagers. *)
Definition sampleTable (playerCount : nat) : RoleCounts :=
  if playerCount <? 9 then {| werewolves := 1; hunters := 0 |}
  else if playerCount <? 13 then {| werewolves := 2; hunters := 1 |}
  else {| werewolves := 3; hunters := 1 |}.

(** ** The phases *)

(** The phase that a night phase hands over to. *)
Definition afterNight (ph : GamePhase) : GamePhase :=
  match ph with
  | NIGHT_WEREWOLF => NIGHT_SEER
  | NIGHT_SEER => NIGHT_WITCH
  | _ => NIGHT_END
  end.

(** One of the three phases of the night in which a role acts. *)
Definition actingNight (ph : GamePhase) : Prop :=
  ph = NIGHT_WEREWOLF \/ ph = NIGHT_SEER \/ ph = NIGHT_WITCH.

(** ** The votes and the human's actions *)

(** A player with its vote set, the rest as it was. *)
Definition set_voteTargetId (v : option string) (p : Player) : Player :=
  {| id := id p; name := name p; role := role p; isBot := isBot p;
     isAlive := isAlive p; isDying := isDying p; isProtected := isProtected p;
     isPoisoned := isPoisoned p; hasActed := hasActed p;
     voteTargetId := v; avatarUrl := avatarUrl p |}.

(** The action that records the vote of [ballot.1] for [ballot.2]. *)
Definition castBallot (ballot : Player * Player) : Action :=
  UPDATE_PLAYER (id (fst ballot)) (votesFor (id (snd ballot))).

(** The last ballot of a voter with the id of [p], if any. *)
Definition ballotOf (ballots : list (Player * Player)) (p : Player)
  : option (Player * Player) :=
  find (fun ballot => String.eqb (id p) (id (fst ballot))) (rev ballots).

(** [p] is an alive bot with somebody else alive to vote for. *)
Definition botVoter (state : GameState) (p : Player) : Prop :=
  isAlive p = true /\ isBot p = true /\
  exists q, In q (players state) /\ isAlive q = true /\ id q <> id p.

(** The confirmation of the human has an effect: the human is alive, a
    target is selected, and the phase is the werewolves' with the human a
    werewolf, the seer's with the human the seer, or the vote. *)
Definition confirms (state : GameState) (selectedTargetId : option string) : Prop :=
  exists human,
    getHumanPlayer state = Some human /\ isAlive human = true /\
    truthy selectedTargetId = true /\
    (phase state = NIGHT_WEREWOLF /\ role human = WEREWOLF \/
     phase state = NIGHT_SEER /\ role human = SEER \/
     phase state = DAY_VOTE).

(** ** What a game dispatches *)

(** The actions of the handlers of a game, by shape. *)
Inductive gameAction : Action -> Prop :=
  | act_phase ph : gameAction (NEXT_PHASE ph)
  | act_log line : gameAction (ADD_LOG line)
  | act_reset x : gameAction (UPDATE_PLAYER x nightReset)
  | act_dead x : gameAction (UPDATE_PLAYER x notAlive)
  | act_dying x : gameAction (UPDATE_PLAYER x dying)
  | act_saved x : gameAction (UPDATE_PLAYER x saved)
  | act_poisoned x : gameAction (UPDATE_PLAYER x poisoned)
  | act_vote x v : gameAction (UPDATE_PLAYER x (votesFor v))
  | act_potion potion : gameAction (SET_WITCH_POTION potion true)
  | act_killed k : gameAction (SET_LAST_KILLED k)
  | act_seer r : gameAction (SET_SEER_RESULT r)
  | act_winner w : gameAction (SET_WINNER w)
  | act_day : gameAction INCREMENT_DAY.

(** Every action of the run satisfies [P]. *)
Definition every {A} (P : Action -> Prop) (m : Eff A) : Prop :=
  Forall P (dispatched m).

(** [p'] sits where [p] sat: the same id, name, role, kind, avatar and
    [hasActed], and not alive if [p] was not. *)
Definition sameSeat (p p' : Player) : Prop :=
  id p' = id p /\ name p' = name p /\ role p' = role p /\
  isBot p' = isBot p /\ avatarUrl p' = avatarUrl p /\
  hasActed p' = hasActed p /\
  (isAlive p = false -> isAlive p' = false).

(** ** More examples and vocabulary *)

(** The state that the start of a game of six leaves, the draws being all
    [0] and no name of a bot being at hand. *)
Definition firstNight : GameState :=
  exec (handleStartGame sampleTable quiet "Ann" "Ann" "ann.png" 6 []
          (fun _ => "bot.png"))
       initialState.

(** What the execution makes of a tally: the id to execute, if any. *)
Definition verdict (votes : list (string * nat)) : option string :=
  if truthy (victimId (tally votes)) && negb (tie (tally votes))
  then victimId (tally votes)
  else None.

(** A player fresh from the start of a game. *)
Definition fresh (p : Player) : Prop :=
  isAlive p = true /\ isDying p = false /\ isProtected p = false /\
  isPoisoned p = false /\ hasActed p = false /\ voteTargetId p = None.

(** [line] is a line of an alive bot of [state], with a text. *)
Definition botLine (state : GameState) (line : LogMessage.t) : Prop :=
  exists speaker,
    In speaker (players state) /\ isBot speaker = true /\
    isAlive speaker = true /\
    LogMessage.sender line = name speaker /\
    LogMessage.text line <> "" /\
    LogMessage.type line = normal.

(** Some bot of [state] is alive. *)
Definition hasAliveBot (state : GameState) : Prop :=
  exists p, In p (players state) /\ isBot p = true /\ isAlive p = true.

(** The run dispatches one action, the log line [line]. *)
Definition says {A} (m : Eff A) (line : LogMessage.t) : Prop :=
  dispatched m = [ADD_LOG line].

(** The parts of the state that the rules of the game read and write: all
    but the log. *)
Definition sameGame (s s' : GameState) : Prop :=
  phase s' = phase s /\ players s' = players s /\
  humanPlayerId s' = humanPlayerId s /\ dayCount s' = dayCount s /\
  winner s' = winner s /\ witchPotions s' = witchPotions s /\
  lastKilledId s' = lastKilledId s /\ seerCheckResult s' = seerCheckResult s.

(** ** The page *)

(** All that a run dispatches, at once and afterwards. *)
Definition allDispatched (r : Run) : list Action :=
  dispatched (immediate r) ++ dispatched (afterwards r).

(** The human of [state] is alive and has the role [r]. *)
Definition humanIs (state : GameState) (r : Role) : Prop :=
  exists human,
    getHumanPlayer state = Some human /\ role human = r /\ isAlive human = true.

(** [nightAction r ph a]: [a] is an action of the role [r], whose turn is
    the phase [ph]. *)
Inductive nightAction : Role -> GamePhase -> Action -> Prop :=
  | wolf_kills k : nightAction WEREWOLF NIGHT_WEREWOLF (SET_LAST_KILLED k)
  | wolf_marks x : nightAction WEREWOLF NIGHT_WEREWOLF (UPDATE_PLAYER x dying)
  | seer_sees r : nightAction SEER NIGHT_SEER (SET_SEER_RESULT r)
  | witch_spends potion used :
      nightAction WITCH NIGHT_WITCH (SET_WITCH_POTION potion used)
  | witch_saves x : nightAction WITCH NIGHT_WITCH (UPDATE_PLAYER x saved)
  | witch_poisons x : nightAction WITCH NIGHT_WITCH (UPDATE_PLAYER x poisoned).

(** The phase that the human's turn hands over to. *)
Definition afterTurn (ph : GamePhase) : GamePhase :=
  match ph with
  | DAY_VOTE => DAY_EXECUTE
  | _ => afterNight ph
  end.

(** * Properties *)

(** ** The reducer and the dispatch monad *)

Lemma GameState_eta (s : GameState) :
  {| phase := phase s; players := players s; humanPlayerId := humanPlayerId s;
     dayCount := dayCount s; logs := logs s; winner := winner s;
     witchPotions := witchPotions s; lastKilledId := lastKilledId s;
     seerCheckResult := seerCheckResult s |} = s.
Proof. by destruct s. Qed.

Lemma Player_eta (p : Player) :
  {| id := id p; name := name p; role := role p; isBot := isBot p;
     isAlive := isAlive p; isDying := isDying p; isProtected := isProtected p;
     isPoisoned := isPoisoned p; hasActed := hasActed p;
     voteTargetId := voteTargetId p; avatarUrl := avatarUrl p |} = p.
Proof. by destruct p. Qed.

Lemma onPlayer_absent (x : string) (f : Player -> Player) (ps : list Player) :
  (forall p, In p ps -> id p <> x) -> onPlayer x f ps = ps.
Proof.
  unfold onPlayer. induction ps as [|p ps IH]; intros Habs; [done|].
  cbn. rewrite IH by (intros q Hq; apply Habs; by right).
  destruct (String.eqb_spec (id p) x) as [Heq|_]; [|done].
  exfalso. apply (Habs p); [by left|done].
Qed.

Lemma reduce_UPDATE_PLAYER (s : GameState) (x : string) (u : PartialPlayer) :
  gameReducer s (UPDATE_PLAYER x u) = set_players (onPlayer x (fun p => spread p u) (players s)) s.
Proof. reflexivity. Qed.

(** C10. [gameReducer] returns a state for every state and every action
    (no branch of it can fail); an [UPDATE_PLAYER] whose [playerId] is the id
    of no player returns the state with its players as they were, and an
    action of a type that the [switch] does not list returns the state
    itself. *)
Theorem gameReducer_total (state : GameState) (a : Action) :
  exists state', gameReducer state a = state' /\
    (forall x u, a = UPDATE_PLAYER x u ->
       (forall p, In p (players state) -> id p <> x) ->
       players state' = players state /\ state' = state) /\
    (forall ty, a = OTHER ty -> state' = state).
Proof.
  exists (gameReducer state a). split; [done|]. split.
  - intros x u -> Habs. rewrite reduce_UPDATE_PLAYER, onPlayer_absent by done.
    split; [done|]. apply GameState_eta.
  - by intros ty ->.
Qed.

Lemma gameReducer_total_witness :
  exists state',
    gameReducer witchNight (UPDATE_PLAYER "p-7" notAlive) = state' /\
    players state' = players witchNight.
Proof.
  destruct (gameReducer_total witchNight (UPDATE_PLAYER "p-7" notAlive))
    as (s' & Hs' & Hupd & _).
  exists s'. split; [exact Hs'|].
  apply (Hupd "p-7" notAlive eq_refl).
  intros p Hp. cbn in Hp. decompose [or] Hp; subst; try done.
Defined.

(** ** The witch *)

Lemma truthy_Some (x : string) : x <> "" -> truthy (Some x) = true.
Proof. intros Hx. cbn. by destruct (String.eqb_spec x ""). Qed.

Lemma spread_saved (p : Player) : spread p saved = set_marks false true p.
Proof. reflexivity. Qed.

Lemma spread_poisoned (p : Player) : spread p poisoned = set_isPoisoned true p.
Proof. reflexivity. Qed.

Lemma spread_notAlive (p : Player) : spread p notAlive = set_isAlive false p.
Proof. reflexivity. Qed.

Lemma spread_dying (p : Player) : spread p dying = set_isDying true p.
Proof. reflexivity. Qed.

Lemma spread_nightReset (p : Player) : spread p nightReset = neutral p.
Proof. reflexivity. Qed.

(** C6. The witch save changes the state if and only if [lastKilledId] is
    set and the [save] potion is unused.  When it is legal, the players
    whose id is [lastKilledId] get [isDying = false] and [isProtected = true],
    every other player and every other field of the state stays as it was
    but for the log line, and the [save] potion is consumed; when it is not,
    the whole state is unchanged.  (An id is never the empty string, which
    the guard of the handler would take for [null].) *)
Theorem handleWitchSave_spec (o : Oracle) (state : GameState)
    (Hid : lastKilledId state <> Some "") :
  let state' := exec (handleWitchSave o state) state in
  completes (handleWitchSave o state) /\
  (state' <> state <-> saveLegal state) /\
  (forall killed, lastKilledId state = Some killed ->
     save (witchPotions state) = true ->
     players state' = onPlayer killed (set_marks false true) (players state) /\
     witchPotions state' = {| save := false; poison := poison (witchPotions state) |} /\
     phase state' = phase state /\
     lastKilledId state' = lastKilledId state /\
     winner state' = winner state /\
     dayCount state' = dayCount state /\
     humanPlayerId state' = humanPlayerId state /\
     seerCheckResult state' = seerCheckResult state /\
     exists line, logs state' = logs state ++ [line]) /\
  (~ saveLegal state -> state' = state).
Proof.
  unfold saveLegal, handleWitchSave.
  destruct (lastKilledId state) as [killed|] eqn:Hk; cycle 1.
  { cbn. repeat split; try done; try (by eexists).
    by intros [[? [=]] _]. }
  assert (killed <> "") as Hne by congruence.
  rewrite (truthy_Some _ Hne). cbn [andb].
  destruct (save (witchPotions state)) eqn:Hs.
  - split; [by eexists|]. split; [split|split].
    + intros _. by split; [eexists|].
    + intros _ Heq. apply (f_equal (fun s => save (witchPotions s))) in Heq.
      cbn in Heq. congruence.
    + intros k [= <-] _. cbn. repeat split; try done. by eexists.
    + intros Hnot. exfalso. apply Hnot. by split; [eexists|].
  - cbn. split; [by eexists|]. split; [split|split].
    + intros Hne'. by destruct Hne'.
    + by intros [_ [=]].
    + intros k _ [=].
    + done.
Qed.

Lemma handleWitchSave_spec_witness :
  players (exec (handleWitchSave quiet witchNight) witchNight) =
    [seat "p-0" WITCH true false false false None;
     seat "p-1" WEREWOLF true false false false None;
     seat "p-2" VILLAGER true false true false None;
     seat "p-3" SEER true false false false None].
Proof.
  assert (lastKilledId witchNight <> Some "") as Hid by (vm_compute; discriminate).
  destruct (handleWitchSave_spec quiet witchNight Hid) as (_ & _ & Hlegal & _).
  destruct (Hlegal "p-2" eq_refl eq_refl) as (Hplayers & _).
  rewrite Hplayers. reflexivity.
Defined.

(** C9. With the [poison] potion unused and a target selected, the poison
    handler sets [isPoisoned] on the players whose id is the target's,
    consumes the potion and moves the phase to [NIGHT_END], whatever the
    phase was and whether the target is alive or not: a target of the
    roster is in the new roster with [isPoisoned = true]. *)
Theorem handleWitchPoison_spec (o : Oracle) (state : GameState) (sel : string)
    (Hpoison : poison (witchPotions state) = true)
    (Hsel : sel <> "") :
  let state' := exec (handleWitchPoison o (Some sel) state) state in
  completes (handleWitchPoison o (Some sel) state) /\
  players state' = onPlayer sel (set_isPoisoned true) (players state) /\
  (forall p, In p (players state) -> id p = sel ->
     In (set_isPoisoned true p) (players state')) /\
  witchPotions state' = {| save := save (witchPotions state); poison := false |} /\
  phase state' = NIGHT_END.
Proof.
  unfold handleWitchPoison. rewrite (truthy_Some _ Hsel), Hpoison. cbn.
  repeat split; try done; try (by eexists).
  intros p Hin Hp. apply in_map_iff. exists p. split; [|done].
  rewrite Hp, String.eqb_refl. reflexivity.
Qed.

(** A dead target, poisoned during the day's discussion. *)
Lemma handleWitchPoison_spec_witness :
  In (seat "p-2" VILLAGER false false false true None)
     (players (exec (handleWitchPoison quiet (Some "p-2") discussion) discussion)) /\
  poison (witchPotions
            (exec (handleWitchPoison quiet (Some "p-2") discussion) discussion))
  = false /\
  phase (exec (handleWitchPoison quiet (Some "p-2") discussion) discussion)
  = NIGHT_END.
Proof.
  assert ("p-2" <> "") as Hsel by discriminate.
  destruct (handleWitchPoison_spec quiet discussion "p-2" eq_refl Hsel)
    as (_ & _ & Hin & Hpot & Hph).
  split; [|split].
  - apply (Hin (seat "p-2" VILLAGER false false false false None)); [|reflexivity].
    cbn. tauto.
  - rewrite Hpot. reflexivity.
  - exact Hph.
Defined.

(** ** Sequencing *)

Lemma completes_dispatch (a : Action) : completes (dispatch a).
Proof. by eexists. Qed.

Lemma completes_skip : completes skip.
Proof. by eexists. Qed.

Lemma completes_bind {A B} (m : Eff A) (k : A -> Eff B) :
  completes m -> (forall a, completes (k a)) -> completes (bind m k).
Proof.
  destruct m as [acts [a|]]; intros [x Hx] Hk; [|done].
  unfold completes, bind in *. specialize (Hk a). by destruct (k a).
Qed.

Lemma dispatched_bind {A B} (m : Eff A) (k : A -> Eff B) (a : A) :
  snd m = Some a -> dispatched (bind m k) = dispatched m ++ dispatched (k a).
Proof.
  destruct m as [acts r]; cbn. intros ->. unfold dispatched. by destruct (k a).
Qed.

Lemma dispatched_seq (m1 m2 : Eff unit) :
  completes m1 -> dispatched (m1 >> m2) = dispatched m1 ++ dispatched m2.
Proof. intros [[] H]. exact (dispatched_bind m1 (fun _ => m2) tt H). Qed.

Lemma exec_seq (m1 m2 : Eff unit) (s : GameState) :
  completes m1 -> exec (m1 >> m2) s = exec m2 (exec m1 s).
Proof.
  intros H. unfold exec. rewrite dispatched_seq by done. apply fold_left_app.
Qed.

Lemma completes_forEach {A} (l : list A) (f : A -> Eff unit) :
  (forall x, completes (f x)) -> completes (forEach l f).
Proof.
  intros Hf. induction l as [|x l IH]; [apply completes_skip|].
  cbn [forEach]. by apply completes_bind.
Qed.

(** A loop that dispatches [g x] for the [x] that pass [c]. *)
Lemma dispatched_forEach_if {A} (l : list A) (c : A -> bool) (g : A -> Action) :
  dispatched (forEach l (fun x => if c x then dispatch (g x) else skip))
  = map g (List.filter c l).
Proof.
  induction l as [|x l IH]; [done|].
  cbn [forEach List.filter]. rewrite dispatched_seq.
  - rewrite IH. by destruct (c x).
  - destruct (c x); [apply completes_dispatch|apply completes_skip].
Qed.

Lemma completes_forEach_if {A} (l : list A) (c : A -> bool) (g : A -> Action) :
  completes (forEach l (fun x => if c x then dispatch (g x) else skip)).
Proof.
  apply completes_forEach. intros x.
  destruct (c x); [apply completes_dispatch|apply completes_skip].
Qed.

(** ** One update for each player of a list *)

Section UpdateMany.
Variable u : PartialPlayer.
Variable f : Player -> Player.
Hypothesis spread_u : forall p, spread p u = f p.
Hypothesis f_id : forall p, id (f p) = id p.
Hypothesis f_idem : forall p, f (f p) = f p.

Lemma updateMany (qs : list Player) (s : GameState) :
  fold_left gameReducer (map (fun q => UPDATE_PLAYER (id q) u) qs) s
  = set_players (map (fun p => if namesakeIn qs p then f p else p) (players s)) s.
Proof using spread_u f_id f_idem.
  revert s. induction qs as [|q qs IH]; intros s.
  - cbn. rewrite map_id. unfold set_players. by rewrite GameState_eta.
  - cbn [map fold_left]. rewrite IH, reduce_UPDATE_PLAYER.
    unfold set_players, onPlayer; cbn. f_equal.
    rewrite map_map. apply map_ext. intros p.
    rewrite spread_u. unfold namesakeIn. cbn [existsb].
    destruct (String.eqb (id p) (id q)) eqn:Hpq; cbn [orb].
    + fold (namesakeIn qs (f p)). unfold namesakeIn. rewrite f_id.
      destruct (existsb _ qs); [apply f_idem|done].
    + done.
Qed.
End UpdateMany.

Lemma namesakeIn_self (ps : list Player) (p : Player) :
  In p ps -> namesakeIn ps p = true.
Proof.
  intros Hin. apply existsb_exists. exists p. split; [done|].
  apply String.eqb_refl.
Qed.

Lemma namesakeIn_filter (c : Player -> bool) (ps : list Player) (p : Player) :
  NoDup (map id ps) -> In p ps ->
  namesakeIn (List.filter c ps) p = c p.
Proof.
  intros Hnd Hin. destruct (c p) eqn:Hc.
  - apply existsb_exists. exists p. split; [|apply String.eqb_refl].
    apply filter_In. by split.
  - apply not_true_is_false. intros Hex.
    apply existsb_exists in Hex as (q & Hq & Heq).
    apply filter_In in Hq as [Hq Hcq]. apply String.eqb_eq in Heq.
    assert (p = q) as ->; [|congruence].
    clear -Hnd Hin Hq Heq.
    induction ps as [|r ps IH]; [done|].
    apply NoDup_cons in Hnd as [Hr Hnd]. cbn in Hin, Hq.
    destruct Hin as [->|Hin], Hq as [->|Hq]; try done.
    + exfalso. apply Hr. rewrite Heq. apply list_elem_of_In, in_map, Hq.
    + exfalso. apply Hr. rewrite <- Heq. apply list_elem_of_In, in_map, Hin.
    + by apply IH.
Qed.

Lemma filter_all {A} (l : list A) : List.filter (fun _ => true) l = l.
Proof. induction l as [|x l IH]; [done|]. cbn. by rewrite IH. Qed.

(** ** The win check *)

Lemma winCheck_running (state : GameState) :
  phase state <> SETUP -> phase state <> GAME_OVER ->
  winCheck state =
    if aliveWolves state =? 0 then Some VILLAGER_wins
    else if aliveGood state <=? aliveWolves state then Some WEREWOLF_wins
    else None.
Proof.
  intros H1 H2. unfold winCheck, GamePhase_eqb.
  rewrite !bool_decide_eq_false_2 by done. reflexivity.
Qed.

Lemma announce_announced (o : Oracle) (w : Winner) (state : GameState) :
  winCheck state = Some w -> announced o w state.
Proof.
  intros Hw. unfold announced, runPhaseLogic. rewrite Hw.
  repeat split; try done. by eexists.
Qed.



(** ** Night start and night end *)

(** C4. When the entry effects of [NIGHT_START] run (the win check found no
    winner), they leave every player with [isDying], [isProtected] and
    [isPoisoned] false and [voteTargetId] null, nothing else of a player
    changed, and [lastKilledId] null. *)
Theorem nightStart_resets (o : Oracle) (state : GameState)
    (Hphase : phase state = NIGHT_START) (Hwin : winCheck state = None) :
  let state' := exec (immediate (runPhaseLogic o state)) state in
  completes (immediate (runPhaseLogic o state)) /\
  players state' = map neutral (players state) /\
  (forall p, In p (players state') ->
     isDying p = false /\ isProtected p = false /\ isPoisoned p = false /\
     voteTargetId p = None) /\
  lastKilledId state' = None.
Proof.
  unfold runPhaseLogic, phaseTransitions. rewrite Hwin, Hphase. cbn [immediate].
  pose proof (completes_forEach_if (players state) (fun _ => true)
                (fun p => UPDATE_PLAYER (id p) nightReset)) as Hc.
  pose proof (dispatched_forEach_if (players state) (fun _ => true)
                (fun p => UPDATE_PLAYER (id p) nightReset)) as Hd.
  cbn beta iota in Hc, Hd.
  assert (List.filter (fun _ : Player => true) (players state) = players state) as Hall.
  { apply filter_all. }
  rewrite Hall in Hd.
  assert (players (exec (forEach (players state)
                           (fun p => dispatch (UPDATE_PLAYER (id p) nightReset))
                         >> dispatch (SET_LAST_KILLED None)) state)
          = map neutral (players state)) as Hplayers.
  { rewrite exec_seq by done. unfold exec at 2. rewrite Hd.
    rewrite (updateMany nightReset neutral) by done. cbn.
    apply map_ext_in. intros p Hp. by rewrite namesakeIn_self. }
  split; [|split; [|split]].
  - apply completes_bind; [done|]. intros _. apply completes_dispatch.
  - exact Hplayers.
  - rewrite Hplayers. intros p (q & <- & _)%in_map_iff. done.
  - by rewrite exec_seq by done.
Qed.

Lemma nightStart_resets_witness :
  players (exec (immediate (runPhaseLogic quiet secondNight)) secondNight) =
    [seat "p-0" VILLAGER true false false false None;
     seat "p-1" WEREWOLF true false false false None;
     seat "p-2" WITCH true false false false None;
     seat "p-3" SEER false false false false None]
  /\ lastKilledId (exec (immediate (runPhaseLogic quiet secondNight)) secondNight)
     = None.
Proof.
  destruct (nightStart_resets quiet secondNight eq_refl eq_refl)
    as (_ & Hp & _ & Hk).
  split; [|exact Hk]. rewrite Hp. reflexivity.
Defined.

(** C1. When the entry effects of [NIGHT_END] run (the win check found no
    winner) on a roster of distinct ids, a player's [isAlive] is set to
    false exactly when [(isDying && !isProtected) || isPoisoned] holds for
    that player at entry, and every other player is left as it was: a
    player dying, protected and poisoned is not alive afterwards, a player
    dying, protected and not poisoned is in the new roster unchanged.  The
    phase moves on to [DAY_ANNOUNCE]. *)
Theorem nightEnd_deaths (o : Oracle) (state : GameState)
    (Hphase : phase state = NIGHT_END) (Hwin : winCheck state = None)
    (Hids : NoDup (map id (players state))) :
  let state' := exec (immediate (runPhaseLogic o state)) state in
  completes (immediate (runPhaseLogic o state)) /\
  players state' =
    map (fun p => if diesTonight p then set_isAlive false p else p) (players state) /\
  (forall p, In p (players state) ->
     isDying p = true -> isProtected p = true -> isPoisoned p = true ->
     In (set_isAlive false p) (players state')) /\
  (forall p, In p (players state) ->
     isDying p = true -> isProtected p = true -> isPoisoned p = false ->
     In p (players state')) /\
  phase state' = DAY_ANNOUNCE.
Proof.
  unfold runPhaseLogic, phaseTransitions. rewrite Hwin, Hphase. cbn [immediate].
  pose proof (completes_forEach_if (players state) diesTonight
                (fun p => UPDATE_PLAYER (id p) notAlive)) as Hc.
  pose proof (dispatched_forEach_if (players state) diesTonight
                (fun p => UPDATE_PLAYER (id p) notAlive)) as Hd.
  set (loop := forEach (players state) _) in *.
  assert (players (exec (loop >> dispatch (NEXT_PHASE DAY_ANNOUNCE)) state)
          = map (fun p => if diesTonight p then set_isAlive false p else p)
                (players state)) as Hplayers.
  { rewrite exec_seq by done. unfold exec at 2. rewrite Hd.
    rewrite (updateMany notAlive (set_isAlive false)) by done. cbn.
    apply map_ext_in. intros p Hp. by rewrite namesakeIn_filter. }
  split; [|split; [|split; [|split]]].
  - apply completes_bind; [done|]. intros _. apply completes_dispatch.
  - exact Hplayers.
  - intros p Hp Hd' Hpr Hpo. rewrite Hplayers. apply in_map_iff.
    exists p. split; [|done]. unfold diesTonight. by rewrite Hd', Hpr, Hpo.
  - intros p Hp Hd' Hpr Hpo. rewrite Hplayers. apply in_map_iff.
    exists p. split; [|done]. unfold diesTonight. by rewrite Hd', Hpr, Hpo.
  - by rewrite exec_seq by done.
Qed.

Lemma nightEnd_deaths_witness :
  players (exec (immediate (runPhaseLogic quiet nightOver)) nightOver) =
    [seat "p-0" VILLAGER false true true true None;
     seat "p-1" WEREWOLF true false false false None;
     seat "p-2" WITCH true true true false None;
     seat "p-3" SEER false true false false None;
     seat "p-4" VILLAGER true false false false None;
     seat "p-5" VILLAGER true false false false None].
Proof.
  assert (NoDup (map id (players nightOver))) as Hids.
  { apply (bool_decide_unpack (NoDup (map id (players nightOver)))).
    vm_compute. exact I. }
  destruct (nightEnd_deaths quiet nightOver eq_refl eq_refl Hids) as (_ & Hp & _).
  rewrite Hp. reflexivity.
Defined.

(** ** The vote *)

Lemma addVote_count_same (x : string) (votes : list (string * nat)) :
  count_of x (addVote x votes) = count_of x votes + 1.
Proof.
  unfold count_of. induction votes as [|[k n] votes IH]; cbn.
  - by rewrite String.eqb_refl.
  - destruct (String.eqb k x) eqn:Hk; cbn; rewrite Hk; [done|apply IH].
Qed.

Lemma addVote_count_other (x y : string) (votes : list (string * nat)) :
  x <> y -> count_of y (addVote x votes) = count_of y votes.
Proof.
  intros Hxy. unfold count_of. induction votes as [|[k n] votes IH]; cbn.
  - by destruct (String.eqb_spec x y).
  - destruct (String.eqb_spec k x) as [->|Hk]; cbn.
    + by destruct (String.eqb_spec x y).
    + destruct (String.eqb k y); [done|apply IH].
Qed.

Lemma addVote_keys (x : string) (votes : list (string * nat)) :
  map fst (addVote x votes) =
    if existsb (String.eqb x) (map fst votes) then map fst votes
    else map fst votes ++ [x].
Proof.
  induction votes as [|[k n] votes IH]; cbn; [done|].
  rewrite (String.eqb_sym x k).
  destruct (String.eqb k x); cbn; [done|].
  rewrite IH. by destruct (existsb _ _).
Qed.

Lemma addVote_NoDup (x : string) (votes : list (string * nat)) :
  NoDup (map fst votes) -> NoDup (map fst (addVote x votes)).
Proof.
  intros Hnd. rewrite addVote_keys.
  destruct (existsb _ _) eqn:Hex; [done|].
  apply NoDup_app. split; [done|]. split; [|apply NoDup_singleton].
  intros k Hk ->%list_elem_of_singleton.
  apply not_true_iff_false in Hex. apply Hex, existsb_exists.
  exists x. split; [by apply list_elem_of_In|apply String.eqb_refl].
Qed.

Lemma addVote_positive (x : string) (votes : list (string * nat)) :
  allPositive votes -> allPositive (addVote x votes).
Proof.
  unfold allPositive. induction votes as [|[k n] votes IH]; cbn; intros Hpos.
  - constructor; [cbn; lia|constructor].
  - apply Forall_cons in Hpos as [Hn Hpos]. cbn in Hn.
    destruct (String.eqb k x); constructor; cbn; auto with lia.
Qed.

Lemma count_of_In (k : string) (n : nat) (votes : list (string * nat)) :
  NoDup (map fst votes) -> In (k, n) votes -> count_of k votes = n.
Proof.
  unfold count_of. induction votes as [|[k' n'] votes IH]; cbn; [done|].
  intros [Hk' Hnd]%NoDup_cons [[= -> ->]|Hin].
  - by rewrite String.eqb_refl.
  - destruct (String.eqb_spec k' k) as [->|_]; [|by apply IH].
    exfalso. apply Hk', list_elem_of_In.
    change k with (fst (k, n)). by apply in_map.
Qed.

Lemma In_count_of (k : string) (votes : list (string * nat)) :
  0 < count_of k votes -> In (k, count_of k votes) votes.
Proof.
  unfold count_of. induction votes as [|[k' n'] votes IH]; cbn; [lia|].
  destruct (String.eqb_spec k' k) as [->|_]; cbn; [by left|].
  intros H. right. by apply IH.
Qed.

Lemma countVotes_fold (ps : list Player) (acc : list (string * nat)) :
  NoDup (map fst acc) -> allPositive acc ->
  NoDup (map fst (fold_left castVote ps acc)) /\
  allPositive (fold_left castVote ps acc) /\
  forall x, count_of x (fold_left castVote ps acc) = count_of x acc + counted x ps.
Proof.
  revert acc. induction ps as [|p ps IH]; intros acc Hnd Hpos.
  - cbn. split; [done|]. split; [done|]. intros x. unfold counted. cbn. lia.
  - cbn [fold_left].
    assert (NoDup (map fst (castVote acc p)) /\ allPositive (castVote acc p) /\
            forall x, count_of x (castVote acc p)
                      = count_of x acc + counted x [p]) as (Hnd' & Hpos' & Hcnt').
    { unfold castVote, counted. cbn [List.filter].
      destruct (voteTargetId p) as [y|] eqn:Hv; cbn [truthy].
      - destruct (negb (String.eqb y "")); cbn [andb].
        + split; [by apply addVote_NoDup|]. split; [by apply addVote_positive|].
          intros x. destruct (decide (y = x)) as [->|Hne].
          * rewrite bool_decide_eq_true_2 by done. apply addVote_count_same.
          * rewrite bool_decide_eq_false_2 by congruence. cbn.
            rewrite addVote_count_other by done. lia.
        + split; [done|]. split; [done|]. intros x. cbn. lia.
      - split; [done|]. split; [done|]. intros x. cbn. lia. }
    destruct (IH _ Hnd' Hpos') as (Hnd'' & Hpos'' & Hcnt'').
    split; [done|]. split; [done|]. intros x. rewrite Hcnt'', Hcnt'.
    unfold counted. cbn [List.filter].
    destruct (truthy _ && bool_decide _); cbn; lia.
Qed.

Lemma tally_snoc (votes : list (string * nat)) (e : string * nat) :
  tally (votes ++ [e]) = tallyStep (tally votes) e.
Proof. unfold tally. by rewrite fold_left_app. Qed.

(** What the loop over the entries leaves in its three locals, whatever
    the order of the entries. *)
Lemma tally_inv (votes : list (string * nat)) :
  allPositive votes -> NoDup (map fst votes) ->
  (forall e, In e votes -> snd e <= maxVotes (tally votes)) /\
  match victimId (tally votes) with
  | None => votes = []
  | Some v =>
      In (v, maxVotes (tally votes)) votes /\
      (tie (tally votes) = true <->
       exists y, y <> v /\ In (y, maxVotes (tally votes)) votes)
  end.
Proof.
  induction votes as [|[x c] votes IH] using rev_ind; intros Hpos Hnd.
  - cbn. split; [by intros e []|done].
  - apply Forall_app in Hpos as [Hpos Hc].
    apply Forall_inv in Hc. cbn in Hc.
    rewrite map_app in Hnd. apply NoDup_app in Hnd as (Hnd & Hfresh & _).
    destruct (IH Hpos Hnd) as [Hmax Hvic]. clear IH.
    assert (forall n, ~ In (x, n) votes) as Hx.
    { intros n Hin. apply (Hfresh x); [|cbn; apply list_elem_of_here].
      apply list_elem_of_In. change x with (fst (x, n)). by apply in_map. }
    rewrite tally_snoc. unfold tallyStep.
    destruct (Nat.ltb_spec (maxVotes (tally votes)) c) as [Hlt|Hge]; cbn.
    + split.
      * intros e [He|[<-|[]]]%in_app_or; [|cbn; lia].
        specialize (Hmax e He). lia.
      * split; [apply in_or_app; right; by left|].
        split; [done|]. intros (y & Hy & [Hin|[[= ->]|[]]]%in_app_or); [|done].
        specialize (Hmax _ Hin). cbn in Hmax. lia.
    + destruct (victimId (tally votes)) as [v|] eqn:Hv; cycle 1.
      { subst votes. cbn in Hge. lia. }
      destruct Hvic as [Hin Htie].
      destruct (Nat.eqb_spec c (maxVotes (tally votes))) as [->|Hne]; cbn;
        rewrite ?Hv.
      * split.
        { intros e [He|[<-|[]]]%in_app_or; [by apply Hmax|cbn; lia]. }
        split; [apply in_or_app; by left|].
        split; [|done]. intros _. exists x. split.
        { intros ->. by apply (Hx _ Hin). }
        apply in_or_app. right. by left.
      * split.
        { intros e [He|[<-|[]]]%in_app_or; [by apply Hmax|cbn; lia]. }
        split; [apply in_or_app; by left|].
        rewrite Htie. split.
        { intros (y & Hy & Hiny). exists y. split; [done|].
          apply in_or_app. by left. }
        intros (y & Hy & [Hiny|[[= -> ->]|[]]]%in_app_or); [by exists y|done].
Qed.

Lemma filter_nonempty {A} (f : A -> bool) (l : list A) :
  0 < length (List.filter f l) -> exists a, In a l /\ f a = true.
Proof.
  destruct (List.filter f l) as [|a l'] eqn:Hf; cbn; [lia|]. intros _.
  exists a. apply filter_In. rewrite Hf. by left.
Qed.

Lemma votesCast_nonempty (state : GameState) (x : string) :
  votesWellFormed state -> 0 < votesCast state x -> x <> "".
Proof.
  intros Hwf (p & Hp & Hc)%filter_nonempty.
  apply andb_true_iff in Hc as [Ha Hv]. apply bool_decide_eq_true in Hv.
  intros ->. by apply (Hwf p).
Qed.

Lemma countVotes_count (state : GameState) (x : string) :
  votesWellFormed state -> count_of x (countVotes state) = votesCast state x.
Proof.
  intros Hwf. unfold countVotes, votesCast.
  destruct (countVotes_fold (List.filter isAlive (players state)) [])
    as (_ & _ & ->); [constructor|constructor|].
  cbn. unfold counted, votesWellFormed in *.
  induction (players state) as [|p ps IH]; [done|].
  cbn [List.filter].
  assert (forall q, In q ps -> isAlive q = true -> voteTargetId q <> Some "") as Hps.
  { intros q Hq. apply Hwf. by right. }
  destruct (isAlive p) eqn:Ha; cbn [List.filter andb]; [|by apply IH].
  assert (truthy (voteTargetId p) && bool_decide (voteTargetId p = Some x)
          = bool_decide (voteTargetId p = Some x)) as ->.
  { destruct (voteTargetId p) as [y|] eqn:Hy; cbn; [|done].
    destruct (String.eqb_spec y "") as [->|_]; [|done].
    exfalso. apply (Hwf p); [by left|done|done]. }
  destruct (bool_decide _); cbn; by rewrite IH.
Qed.

Lemma countVotes_shape (state : GameState) :
  NoDup (map fst (countVotes state)) /\ allPositive (countVotes state).
Proof.
  destruct (countVotes_fold (List.filter isAlive (players state)) [])
    as (H1 & H2 & _); [constructor|constructor|]. by split.
Qed.

Section Tally.
Variable votes : list (string * nat).
Hypothesis Hpos : allPositive votes.
Hypothesis Hnd : NoDup (map fst votes).

(** One candidate strictly ahead of every other: that one, no tie. *)
Lemma tally_unique_top (x : string) :
  0 < count_of x votes ->
  (forall y, y <> x -> count_of y votes < count_of x votes) ->
  victimId (tally votes) = Some x /\ tie (tally votes) = false.
Proof using Hpos Hnd.
  intros Hx Htop. destruct (tally_inv votes Hpos Hnd) as [Hmax Hvic].
  pose proof (In_count_of x votes Hx) as Hin.
  pose proof (Hmax _ Hin) as Hle. cbn in Hle.
  destruct (victimId (tally votes)) as [v|]; [|by rewrite Hvic in Hin].
  destruct Hvic as [Hv Htie].
  pose proof (count_of_In _ _ _ Hnd Hv) as Hcv.
  assert (v = x) as ->.
  { destruct (decide (v = x)) as [|Hne]; [done|].
    specialize (Htop v Hne). lia. }
  split; [done|]. apply not_true_is_false. intros Ht.
  apply Htie in Ht as (y & Hy & Hiny).
  pose proof (count_of_In _ _ _ Hnd Hiny) as Hcy.
  specialize (Htop y Hy). lia.
Qed.

(** Two candidates on the top count: a tie. *)
Lemma tally_tied (x y : string) :
  x <> y -> 0 < count_of x votes -> count_of x votes = count_of y votes ->
  (forall z, count_of z votes <= count_of x votes) ->
  tie (tally votes) = true.
Proof using Hpos Hnd.
  intros Hxy Hx Heq Htop. destruct (tally_inv votes Hpos Hnd) as [Hmax Hvic].
  pose proof (In_count_of x votes Hx) as Hinx.
  assert (0 < count_of y votes) as Hy by lia.
  pose proof (In_count_of y votes Hy) as Hiny.
  destruct (victimId (tally votes)) as [v|]; [|by rewrite Hvic in Hinx].
  destruct Hvic as [Hv Htie].
  pose proof (count_of_In _ _ _ Hnd Hv) as Hcv.
  pose proof (Hmax _ Hinx) as Hle. cbn in Hle.
  assert (maxVotes (tally votes) = count_of x votes) as Hm.
  { specialize (Htop v). lia. }
  apply Htie. rewrite Hm.
  destruct (decide (x = v)) as [<-|Hne].
  - exists y. split; [done|]. by rewrite Heq.
  - by exists x.
Qed.

(** No vote: no victim. *)
Lemma tally_none :
  (forall x, count_of x votes = 0) -> victimId (tally votes) = None.
Proof using Hpos Hnd.
  intros Hzero. destruct (tally_inv votes Hpos Hnd) as [_ Hvic].
  destruct (victimId (tally votes)) as [v|]; [|done].
  destruct Hvic as [Hv _]. exfalso.
  pose proof (count_of_In _ _ _ Hnd Hv) as Hcv.
  pose proof (proj1 (List.Forall_forall _ _) Hpos _ Hv) as Hp.
  cbn in Hp. rewrite Hzero in Hcv. lia.
Qed.
End Tally.

Lemma find_id_is (x : string) (ps : list Player) :
  match find (id_is (Some x)) ps with
  | Some victim => id victim = x
  | None => forall p, In p ps -> id p <> x
  end.
Proof.
  destruct (find _ ps) as [victim|] eqn:Hf.
  - apply find_some in Hf as [_ Hid]. by apply String.eqb_eq in Hid.
  - intros p Hp Hid. pose proof (find_none _ _ Hf p Hp) as Hn.
    cbn in Hn. rewrite Hid, String.eqb_refl in Hn. done.
Qed.


(** The two tallies of the specification: A:2, B:2, C:1 executes nobody;
    A:3, B:1 executes A (here A, B, C are the seats 1, 2, 3). *)
Example tally_two_two_one :
  countVotes tiedVote = [("p-1", 2); ("p-2", 2); ("p-3", 1)] /\
  players (exec (immediate (runPhaseLogic quiet tiedVote)) tiedVote)
  = players tiedVote.
Proof. split; reflexivity. Qed.


(** ** The werewolf kill *)

Lemma In_aliveGoodPlayers (state : GameState) (p : Player) :
  In p (aliveGoodPlayers state) <->
  In p (players state) /\ isAlive p = true /\ role p <> WEREWOLF.
Proof.
  unfold aliveGoodPlayers. rewrite filter_In, andb_true_iff, negb_true_iff.
  unfold Role_eqb. rewrite bool_decide_eq_false. tauto.
Qed.

(** The kill of the bots: with a fair draw it never throws; on an empty
    pool it dispatches nothing; otherwise its target is an alive player
    that is no werewolf, recorded in [lastKilledId] whatever was there, and
    marked [isDying]. *)
Lemma handleBotWerewolfAction_spec (o : Oracle) (state : GameState) :
  fair o ->
  let m := handleBotWerewolfAction o state in
  completes m /\
  (aliveGoodPlayers state = [] -> dispatched m = [] /\ exec m state = state) /\
  (aliveGoodPlayers state <> [] ->
     exists target,
       In target (players state) /\ isAlive target = true /\
       role target <> WEREWOLF /\
       lastKilledId (exec m state) = Some (id target) /\
       players (exec m state)
       = onPlayer (id target) (set_isDying true) (players state)).
Proof.
  intros Hfair. unfold handleBotWerewolfAction.
  destruct (aliveGoodPlayers state) as [|g pool] eqn:Hpool.
  - cbn. split; [by eexists|]. split; [done|]. by intros [].
  - set (n := length (g :: pool)).
    assert (0 < n) as Hn by (cbn; lia).
    apply Nat.ltb_lt in Hn as Hn'. rewrite Hn'.
    destruct (lookup_lt_is_Some_2 (g :: pool) (randomBelow o 0 n) (Hfair 0 n Hn))
      as [target Ht].
    rewrite Ht. split; [by eexists|]. split; [done|]. intros _.
    exists target.
    assert (In target (aliveGoodPlayers state)) as Hin.
    { rewrite Hpool. apply list_elem_of_In. by eapply list_elem_of_lookup_2. }
    apply In_aliveGoodPlayers in Hin as (Hin & Ha & Hr).
    repeat split; done.
Qed.

(** C7. The kill is to select an alive player that is no werewolf, on the
    path of the bots and on the path of the human.  The human werewolf may
    click any alive player but itself, and the confirmed kill takes the
    selection as it is, with none of the filtering of
    [handleBotWerewolfAction]: here seat 0, a werewolf, selects seat 1, the
    other werewolf, which is not in the pool of the bots' kill and yet ends
    the action recorded in [lastKilledId] and marked [isDying]; the night's
    resolution then removes it. *)
Example human_kill_takes_werewolf :
  winCheck wolfPack = None /\
  onPlayerClick wolfPack (seat "p-1" WEREWOLF true false false false None) None
  = Some "p-1" /\
  ~ In (seat "p-1" WEREWOLF true false false false None)
       (aliveGoodPlayers wolfPack) /\
  lastKilledId wolfPackBitten = Some "p-1" /\
  players wolfPackBitten = onPlayer "p-1" (set_isDying true) (players wolfPack) /\
  In (seat "p-1" WEREWOLF true true false false None) (players wolfPackBitten) /\
  phase wolfPackBitten = NIGHT_SEER /\
  In (seat "p-1" WEREWOLF false true false false None)
     (players (exec (immediate (runPhaseLogic quiet
                                  (set_phase NIGHT_END wolfPackBitten)))
                    (set_phase NIGHT_END wolfPackBitten))).
Proof.
  split; [reflexivity|]. split; [reflexivity|]. split.
  { rewrite In_aliveGoodPlayers. cbn. intros (_ & _ & H). by apply H. }
  split; [reflexivity|]. split; [reflexivity|]. split.
  { vm_compute. auto 10. }
  split; [reflexivity|]. vm_compute. auto 10.
Qed.

(** ** The potions over a game *)

Lemma tame_skip : allTame skip.
Proof. constructor. Qed.

Lemma tame_throw {A} : allTame (@throw A).
Proof. constructor. Qed.

Lemma tame_dispatch (a : Action) : tame a -> allTame (dispatch a).
Proof. intros H. by constructor. Qed.

Lemma tame_addLog o k text sender type : allTame (addLog o k text sender type).
Proof. by apply tame_dispatch. Qed.

Lemma tame_bind {A B} (m : Eff A) (k : A -> Eff B) :
  allTame m -> (forall a, allTame (k a)) -> allTame (bind m k).
Proof.
  unfold allTame. destruct m as [acts [a|]]; cbn; intros Hm Hk; [|done].
  specialize (Hk a). destruct (k a) as [acts' r]. cbn in *.
  apply Forall_app. by split.
Qed.

Lemma tame_forEach {A} (l : list A) (f : A -> Eff unit) :
  (forall x, allTame (f x)) -> allTame (forEach l f).
Proof.
  intros Hf. induction l as [|x l IH]; [apply tame_skip|].
  cbn [forEach]. by apply tame_bind.
Qed.

Ltac tame_step :=
  first
    [ apply tame_skip | apply tame_throw | apply tame_addLog
    | apply tame_dispatch; exact I
    | apply tame_bind; [|intros ?]
    | apply tame_forEach; intros ?
    | progress cbn [immediate afterwards]
    | case_match ].

Lemma tame_botVotes o alive k rest : allTame (botVotes o alive k rest).
Proof.
  revert k. induction rest as [|bot rest IH]; intros k; cbn [botVotes].
  - apply tame_skip.
  - apply tame_bind; [|intros _; apply IH]. repeat tame_step.
Qed.

Lemma tame_runPhaseLogic o s0 :
  allTame (immediate (runPhaseLogic o s0)) /\
  allTame (afterwards (runPhaseLogic o s0)).
Proof.
  unfold runPhaseLogic, announce, phaseTransitions, handleBotWerewolfAction,
    handleBotSeerAction, handleBotWitchAction, handleBotVoting.
  split; repeat first [apply tame_botVotes | tame_step].
Qed.

Lemma inGame_tame (s0 : GameState) (m : Eff unit) : inGame s0 m -> allTame m.
Proof.
  destruct 1;
    try apply tame_runPhaseLogic;
    unfold handleHumanAction, handleWitchSave, handleWitchPoison, skipPhase,
      handleSendChat, runAutoDiscussion;
    repeat tame_step.
Qed.

Lemma tame_keeps_spent (f : GameState -> bool) (s : GameState) (a : Action) :
  f = saveLeft \/ f = poisonLeft ->
  tame a -> f s = false -> f (gameReducer s a) = false.
Proof.
  intros Hf Ha Hs.
  destruct a as [| | | |potion used| | | | | |]; try done;
    try (by destruct Hf as [-> | ->]).
  destruct used; [|done].
  destruct Hf as [-> | ->], potion; done.
Qed.

Lemma step_keeps_spent (f : GameState -> bool) (s s' : GameState) :
  f = saveLeft \/ f = poisonLeft -> step s s' -> f s = false -> f s' = false.
Proof.
  intros Hf (s0 & m & a & Hm & Ha & ->). apply tame_keeps_spent; [done|].
  apply inGame_tame in Hm. unfold allTame in Hm.
  by apply (proj1 (List.Forall_forall _ _) Hm).
Qed.

Lemma steps_keep_spent (f : GameState -> bool) (s s' : GameState) :
  f = saveLeft \/ f = poisonLeft -> steps s s' -> f s = false -> f s' = false.
Proof.
  intros Hf. induction 1 as [|s s' s'' Hstep _ IH]; [done|].
  intros Hs. apply IH. by eapply step_keeps_spent.
Qed.

Lemma drops_cons (f : GameState -> bool) (s s' : GameState) (l : list GameState) :
  drops f (s :: s' :: l)
  = (if f s && negb (f s') then 1 else 0) + drops f (s' :: l).
Proof. reflexivity. Qed.

Lemma path_drops (f : GameState -> bool) (l : list GameState) :
  f = saveLeft \/ f = poisonLeft -> path l ->
  drops f l <= 1 /\ (forall s l', l = s :: l' -> f s = false -> drops f l = 0).
Proof.
  intros Hf. induction 1 as [s|s s' l Hstep Hpath [IH1 IH2]].
  - cbn. split; [lia|done].
  - rewrite drops_cons. split.
    + destruct (f s) eqn:Hs, (f s') eqn:Hs'; cbn [andb negb]; try lia.
      rewrite (IH2 s' l eq_refl Hs'). lia.
    + intros s1 l' [= <- <-] Hs. rewrite Hs. cbn [andb].
      rewrite (IH2 s' l eq_refl); [done|]. by eapply step_keeps_spent.
Qed.

Lemma handleWitchSave_spent (o : Oracle) (s : GameState) :
  saveLeft s = false ->
  dispatched (handleWitchSave o s) = [] /\ exec (handleWitchSave o s) s = s.
Proof.
  unfold saveLeft, handleWitchSave. intros ->.
  destruct (lastKilledId s); by rewrite ?andb_false_r.
Qed.

Lemma handleWitchPoison_spent (o : Oracle) (sel : option string) (s : GameState) :
  poisonLeft s = false ->
  dispatched (handleWitchPoison o sel s) = [] /\
  exec (handleWitchPoison o sel s) s = s.
Proof.
  unfold poisonLeft, handleWitchPoison. intros ->.
  destruct sel; by rewrite ?andb_false_r.
Qed.

(** C5. Along the successive stores of one game (any actions of the
    component but the start of a game and its reset, in any order), each of
    the two potions goes from true to false at most once; once it is false
    it is false in every later store of the game, and there the witch
    action that would spend it dispatches nothing and leaves the store
    unchanged. *)
Theorem potions_spent_once :
  (forall l, path l -> drops saveLeft l <= 1 /\ drops poisonLeft l <= 1) /\
  (forall s s', steps s s' ->
     (saveLeft s = false ->
        saveLeft s' = false /\
        forall o, dispatched (handleWitchSave o s') = [] /\
                  exec (handleWitchSave o s') s' = s') /\
     (poisonLeft s = false ->
        poisonLeft s' = false /\
        forall o sel, dispatched (handleWitchPoison o sel s') = [] /\
                      exec (handleWitchPoison o sel s') s' = s')).
Proof.
  split.
  - intros l Hl. split.
    + by apply (path_drops saveLeft l (or_introl eq_refl)).
    + by apply (path_drops poisonLeft l (or_intror eq_refl)).
  - intros s s' Hsteps. split; intros Hs.
    + pose proof (steps_keep_spent saveLeft s s' (or_introl eq_refl) Hsteps Hs).
      split; [done|]. intros o. by apply handleWitchSave_spent.
    + pose proof (steps_keep_spent poisonLeft s s' (or_intror eq_refl) Hsteps Hs).
      split; [done|]. intros o sel. by apply handleWitchPoison_spent.
Qed.

(** The witch saves the victim of the first night and lets the night end;
    the save does nothing from then on. *)
Lemma potions_spent_once_witness :
  drops saveLeft
    [witchNight;
     gameReducer witchNight (SET_WITCH_POTION save_potion true);
     gameReducer (gameReducer witchNight (SET_WITCH_POTION save_potion true))
       (NEXT_PHASE NIGHT_END)] <= 1 /\
  exec (handleWitchSave quiet
          (gameReducer (gameReducer witchNight (SET_WITCH_POTION save_potion true))
             (NEXT_PHASE NIGHT_END)))
       (gameReducer (gameReducer witchNight (SET_WITCH_POTION save_potion true))
          (NEXT_PHASE NIGHT_END))
  = gameReducer (gameReducer witchNight (SET_WITCH_POTION save_potion true))
      (NEXT_PHASE NIGHT_END).
Proof.
  set (s1 := gameReducer witchNight (SET_WITCH_POTION save_potion true)).
  set (s2 := gameReducer s1 (NEXT_PHASE NIGHT_END)).
  assert (step witchNight s1) as H01.
  { exists witchNight, (handleWitchSave quiet witchNight),
      (SET_WITCH_POTION save_potion true).
    split; [constructor|]. split; [|reflexivity]. vm_compute. auto. }
  assert (step s1 s2) as H12.
  { exists s1, (skipPhase s1), (NEXT_PHASE NIGHT_END).
    split; [constructor|]. split; [|reflexivity]. vm_compute. auto. }
  destruct potions_spent_once as [Hpath Hsteps].
  split.
  - apply Hpath. apply path_cons; [exact H01|].
    apply path_cons; [exact H12|]. apply path_one.
  - destruct (Hsteps s1 s2) as [Hsave _].
    { eapply steps_step; [exact H12|apply steps_refl]. }
    destruct (Hsave eq_refl) as [_ Hnoop]. apply Hnoop.
Defined.

(** ** The role distribution and the shuffle *)

Lemma insert_head_perm (l : list Role) (j : nat) (b x : Role) :
  l !! j = Some b -> b :: <[j := x]> l ≡ₚ x :: l.
Proof.
  revert j. induction l as [|y l IH]; intros [|j] Hj; try done.
  - cbn in Hj. injection Hj as ->. cbn. apply perm_swap.
  - cbn in Hj. change (<[S j := x]> (y :: l)) with (y :: <[j := x]> l).
    etrans; [apply perm_swap|].
    etrans; [apply perm_skip, (IH j Hj)|apply perm_swap].
Qed.

Lemma swap_perm (i j : nat) (roles : list Role) :
  i < length roles -> j < length roles ->
  exists roles', swap i j roles = Some roles' /\ roles' ≡ₚ roles.
Proof.
  intros Hi Hj. unfold swap.
  destruct (lookup_lt_is_Some_2 roles i Hi) as [a Ha].
  destruct (lookup_lt_is_Some_2 roles j Hj) as [b Hb].
  rewrite Ha, Hb. eexists. split; [done|]. clear Hi Hj.
  revert i j Ha Hb. induction roles as [|y l IH]; intros i j Ha Hb; [done|].
  destruct i as [|i], j as [|j]; cbn in Ha, Hb.
  - by simplify_eq.
  - injection Ha as Ha. subst a.
    change (<[S j := y]> (<[0 := b]> (y :: l))) with (b :: <[j := y]> l).
    by apply insert_head_perm.
  - injection Hb as Hb. subst b.
    change (<[0 := a]> (<[S i := y]> (y :: l))) with (a :: <[i := y]> l).
    by apply insert_head_perm.
  - change (<[S j := a]> (<[S i := b]> (y :: l)))
      with (y :: <[j := a]> (<[i := b]> l)).
    apply perm_skip. by apply IH.
Qed.

Lemma shuffleFrom_perm (o : Oracle) (k i : nat) (roles : list Role) :
  fair o -> i < length roles ->
  exists roles', shuffleFrom o k i roles = Some roles' /\ roles' ≡ₚ roles.
Proof.
  intros Hfair. revert k roles. induction i as [|i IH]; intros k roles Hi.
  - by exists roles.
  - cbn [shuffleFrom].
    pose proof (Hfair k (S i + 1) ltac:(lia)) as Hdraw.
    destruct (swap_perm (S i) (randomBelow o k (S i + 1)) roles)
      as (roles1 & -> & Hperm1); [lia|lia|].
    destruct (IH (S k) roles1) as (roles2 & Hs & Hperm2).
    { rewrite Hperm1. lia. }
    exists roles2. split; [done|]. by rewrite Hperm2.
Qed.

Lemma shuffle_perm (o : Oracle) (roles : list Role) :
  fair o -> exists roles', shuffle o roles = Some roles' /\ roles' ≡ₚ roles.
Proof.
  intros Hfair. unfold shuffle. destruct roles as [|r roles].
  - by exists [].
  - apply shuffleFrom_perm; [done|]. cbn. lia.
Qed.

(** ** The rosters a game can reach

    What the statements above assume of a state (distinct ids, no empty id
    in a vote or in [lastKilledId]) is true of every state the component
    reaches. *)

Lemma clean_wellFormed (a : Action) (s : GameState) :
  clean a -> wellFormed s -> wellFormed (gameReducer s a).
Proof.
  intros Ha (Hnd & Hid & Hvote & Hk).
  destruct a as [| | |x u| | | | | | |]; try done.
  - destruct Ha as [Hu Hv]. unfold wellFormed. cbn.
    assert (forall p, id (if String.eqb (id p) x then spread p u else p) = id p)
      as Hsame.
    { intros p. destruct (String.eqb (id p) x); [|done]. cbn. by rewrite Hu. }
    split; [|split; [|split]]; [| | |done].
    + rewrite map_map. by rewrite (map_ext _ id Hsame).
    + intros p' (p & <- & Hp)%in_map_iff. rewrite Hsame. by apply Hid.
    + intros p' (p & <- & Hp)%in_map_iff.
      destruct (String.eqb (id p) x); [|by apply Hvote]. cbn.
      destruct (upd_voteTargetId u) as [v|]; cbn; [congruence|by apply Hvote].
Qed.

Lemma clean_skip : allClean skip.
Proof. constructor. Qed.

Lemma clean_throw {A} : allClean (@throw A).
Proof. constructor. Qed.

Lemma clean_dispatch (a : Action) : clean a -> allClean (dispatch a).
Proof. intros H. by constructor. Qed.

Lemma clean_addLog o k text sender type : allClean (addLog o k text sender type).
Proof. by apply clean_dispatch. Qed.

Lemma clean_bind {A B} (m : Eff A) (k : A -> Eff B) :
  allClean m -> (forall a, allClean (k a)) -> allClean (bind m k).
Proof.
  unfold allClean. destruct m as [acts [a|]]; cbn; intros Hm Hk; [|done].
  specialize (Hk a). destruct (k a) as [acts' r]. cbn in *.
  apply Forall_app. by split.
Qed.

Lemma clean_forEach {A} (l : list A) (f : A -> Eff unit) :
  (forall x, allClean (f x)) -> allClean (forEach l f).
Proof.
  intros Hf. induction l as [|x l IH]; [apply clean_skip|].
  cbn [forEach]. by apply clean_bind.
Qed.

Lemma truthy_nonempty (x : string) : truthy (Some x) = true -> x <> "".
Proof. cbn. intros H ->. done. Qed.

Ltac clean_step :=
  first
    [ apply clean_skip | apply clean_throw | apply clean_addLog
    | apply clean_dispatch; cbn; first [exact I | by split | done]
    | apply clean_bind; [|intros ?]
    | apply clean_forEach; intros ?
    | progress cbn [immediate afterwards]
    | case_match ].

Section Clean.
Variable s0 : GameState.
Hypothesis Hids : forall p, In p (players s0) -> id p <> "".

Lemma clean_handleBotWerewolfAction o : allClean (handleBotWerewolfAction o s0).
Proof using Hids.
  unfold handleBotWerewolfAction.
  destruct (0 <? _); [|apply clean_skip].
  destruct (aliveGoodPlayers s0 !! _) as [target|] eqn:Ht; [|apply clean_throw].
  assert (id target <> "") as Hne.
  { apply Hids. eapply In_aliveGoodPlayers, list_elem_of_In.
    by eapply list_elem_of_lookup_2. }
  apply clean_bind; [|intros _]; apply clean_dispatch; cbn; [congruence|done].
Qed.

Lemma clean_botVotes o alive k rest :
  (forall p, In p alive -> id p <> "") -> allClean (botVotes o alive k rest).
Proof using Type.
  intros Halive. revert k. induction rest as [|bot rest IH]; intros k; cbn [botVotes].
  - apply clean_skip.
  - apply clean_bind; [|intros _; apply IH].
    destruct (isBot bot); [|apply clean_skip].
    destruct (0 <? _); [|apply clean_skip].
    destruct (_ !! _) as [target|] eqn:Ht; [|apply clean_throw].
    assert (id target <> "") as Hne.
    { apply Halive. apply list_elem_of_lookup_2, list_elem_of_In in Ht.
      by apply filter_In in Ht as [Ht _]. }
    apply clean_dispatch. cbn. split; [done|congruence].
Qed.

Lemma clean_handleBotVoting o : allClean (handleBotVoting o s0).
Proof using Hids.
  apply clean_botVotes. intros p [Hp _]%filter_In. by apply Hids.
Qed.

Lemma clean_runPhaseLogic o :
  allClean (immediate (runPhaseLogic o s0)) /\
  allClean (afterwards (runPhaseLogic o s0)).
Proof using Hids.
  unfold runPhaseLogic, announce, phaseTransitions,
    handleBotSeerAction, handleBotWitchAction.
  split;
    repeat first [apply clean_handleBotVoting
                 | apply clean_handleBotWerewolfAction | clean_step].
Qed.

Lemma clean_handleHumanAction o sel :
  allClean (immediate (handleHumanAction o sel s0)) /\
  allClean (afterwards (handleHumanAction o sel s0)).
Proof using Type.
  unfold handleHumanAction.
  split; repeat clean_step;
    apply clean_dispatch; cbn; try split; try done;
    intros [= ->]; discriminate.
Qed.

End Clean.

Lemma inGame_clean (s0 : GameState) (m : Eff unit) :
  (forall p, In p (players s0) -> id p <> "") -> inGame s0 m -> allClean m.
Proof.
  intros Hids Hm.
  destruct Hm;
    try apply (proj1 (clean_runPhaseLogic _ Hids _));
    try apply (proj2 (clean_runPhaseLogic _ Hids _));
    try apply (proj1 (clean_handleHumanAction _ _ _));
    try apply (proj2 (clean_handleHumanAction _ _ _));
    unfold handleWitchSave, handleWitchPoison, skipPhase,
      handleSendChat, runAutoDiscussion;
    repeat clean_step.
Qed.

#[global] Instance seatId_inj : Inj (=) (=) seatId.
Proof.
  intros i j H. unfold seatId in H. cbn in H. injection H as H.
  by apply (inj pretty).
Qed.

Lemma newPlayer_Some setupName avatar names botAvatar roles idx p :
  newPlayer setupName avatar names botAvatar roles idx = Some p ->
  id p = seatId idx /\ voteTargetId p = None /\ roles !! idx = Some (role p) /\
  isAlive p = true /\ isDying p = false /\ isProtected p = false /\
  isPoisoned p = false.
Proof.
  unfold newPlayer. destruct (roles !! idx) as [r|]; [|done].
  by intros [= <-].
Qed.

(** The roster that [handleStartGame] hands to [START_GAME]: the seats
    [p-0 .. p-(n-1)] in order, with the shuffled roles in order, everybody
    alive and unmarked, nobody's vote cast. *)
Lemma newPlayers_spec setupName avatar names botAvatar roles n ps :
  mapM (newPlayer setupName avatar names botAvatar roles) (seq 0 n) = Some ps ->
  map id ps = map seatId (seq 0 n) /\
  map role ps = take n roles /\
  Forall (fun p => voteTargetId p = None /\ isAlive p = true /\
                   isDying p = false /\ isProtected p = false /\
                   isPoisoned p = false) ps.
Proof.
  intros H%mapM_Some_1.
  assert (map id ps = map seatId (seq 0 n) /\
          Forall2 (fun idx p => roles !! idx = Some (role p)) (seq 0 n) ps /\
          Forall (fun p => voteTargetId p = None /\ isAlive p = true /\
                           isDying p = false /\ isProtected p = false /\
                           isPoisoned p = false) ps) as (Hid & Hrole & Hrest).
  { induction H as [|idx p l ps' Hp _ IH]; [by repeat constructor|].
    apply newPlayer_Some in Hp as (Hi & Hv & Hr & Hflags).
    destruct IH as (IH1 & IH2 & IH3).
    split; [|split].
    - cbn. by rewrite Hi, IH1.
    - by constructor.
    - by constructor. }
  split; [done|]. split; [|done].
  clear -Hrole. apply list_eq. intros i.
  rewrite list_lookup_fmap, lookup_take.
  destruct (decide (i < n)) as [Hi|Hi].
  - destruct (Forall2_lookup_l _ _ _ i i Hrole) as (p & Hp & Hr).
    { by apply lookup_seq. }
    by rewrite Hp, Hr.
  - rewrite (proj2 (lookup_ge_None ps i)); [done|].
    apply Forall2_length in Hrole. rewrite length_seq in Hrole. lia.
Qed.

Lemma handleStartGame_wellFormed roleTable o setupName trimmedName avatar
    setupCount names botAvatar newPlayers humanId s :
  In (START_GAME newPlayers humanId)
     (dispatched (handleStartGame roleTable o setupName trimmedName avatar
                    setupCount names botAvatar)) ->
  wellFormed (gameReducer s (START_GAME newPlayers humanId)).
Proof.
  unfold handleStartGame.
  destruct (String.eqb trimmedName ""); [by intros []|].
  destruct (distribution _ _) as [|roles]; [by intros []|].
  destruct (shuffle o roles) as [roles'|]; [|by intros []].
  destruct (mapM _ _) as [[|human others]|] eqn:Hm; try (by intros []).
  intros [[= <- <-]|[]].
  apply newPlayers_spec in Hm as (Hid & _ & Hrest).
  unfold wellFormed. cbn [gameReducer players lastKilledId initialState].
  split; [|split; [|split]]; [| | |done].
  - rewrite Hid. apply (NoDup_fmap_2 seatId), NoDup_ListNoDup, seq_NoDup.
  - intros p Hp. apply (in_map id) in Hp. rewrite Hid in Hp.
    apply in_map_iff in Hp as (idx & <- & _). done.
  - intros p Hp. apply (proj1 (List.Forall_forall _ _) Hrest) in Hp as [-> _].
    done.
Qed.

(** Every state of the component is well formed. *)
Lemma reachable_wellFormed (s : GameState) : reachable s -> wellFormed s.
Proof.
  induction 1 as [| |s _ _|s0 s m a _ IH0 _ IH Hm Ha].
  - unfold wellFormed. cbn. repeat split; try done. constructor.
  - by eapply handleStartGame_wellFormed.
  - unfold wellFormed. cbn. repeat split; try done. constructor.
  - apply clean_wellFormed; [|done].
    destruct IH0 as (_ & Hids & _).
    pose proof (inGame_clean s0 m Hids Hm) as Hclean.
    by apply (proj1 (List.Forall_forall _ _) Hclean).
Qed.

(** What the statements on the night's end, the vote and the witch's save
    ask of the state holds in every state of the component. *)
Corollary reachable_hypotheses (s : GameState) :
  reachable s ->
  NoDup (map id (players s)) /\ votesWellFormed s /\ lastKilledId s <> Some "".
Proof.
  intros (Hnd & _ & Hvote & Hk)%reachable_wellFormed.
  split; [done|]. split; [|done]. intros p Hp _. by apply Hvote.
Qed.

(** ** Starting a game: the roles *)

Lemma distribution_in_range (roleTable : nat -> RoleCounts) (playerCount : nat) :
  6 <= playerCount <= 18 -> rowFits roleTable playerCount ->
  exists roles,
    distribution roleTable playerCount = inr roles /\
    length roles = playerCount /\
    In WEREWOLF roles /\
    In SEER roles.
Proof.
  unfold distribution. intros [Hlo Hhi] [Hwolf Hfit].
  apply Nat.leb_le in Hlo as ->. apply Nat.leb_le in Hhi as ->. cbn [andb].
  set (row := roleTable playerCount) in *.
  eexists. split; [reflexivity|]. split; [|split].
  - rewrite !length_app, !repeat_length. cbn. lia.
  - apply in_or_app. left.
    destruct (werewolves row) as [|w]; [lia|]. by left.
  - apply in_or_app. right. by left.
Qed.

Lemma distribution_out_of_range (roleTable : nat -> RoleCounts) (playerCount : nat) :
  playerCount < 6 \/ 18 < playerCount ->
  distribution roleTable playerCount = inl (PlayerCountOutOfRange playerCount).
Proof.
  intros Hout. unfold distribution.
  destruct (Nat.leb_spec 6 playerCount), (Nat.leb_spec playerCount 18);
    cbn [andb]; try done; lia.
Qed.

(** With a name and the roles of the distribution, [handleStartGame]
    dispatches one [START_GAME], of the seats in order with the shuffled
    roles in order. *)
Lemma handleStartGame_started roleTable o setupName trimmedName avatar
    setupCount names botAvatar roles :
  trimmedName <> "" -> fair o -> 0 < setupCount ->
  distribution roleTable setupCount = inr roles -> length roles = setupCount ->
  exists roles' newPlayers,
    shuffle o roles = Some roles' /\ roles' ≡ₚ roles /\
    dispatched (handleStartGame roleTable o setupName trimmedName avatar
                  setupCount names botAvatar)
    = [START_GAME newPlayers (seatId 0)] /\
    map role newPlayers = roles' /\
    map id newPlayers = map seatId (seq 0 setupCount).
Proof.
  intros Hname Hfair Hpos Hd Hlen. unfold handleStartGame.
  apply String.eqb_neq in Hname as ->. rewrite Hd.
  destruct (shuffle_perm o roles Hfair) as (roles' & -> & Hperm).
  assert (length roles' = setupCount) as Hlen' by (by rewrite Hperm).
  exists roles'.
  destruct (mapM (newPlayer setupName avatar names botAvatar roles')
              (seq 0 setupCount)) as [ps|] eqn:Hm; cycle 1.
  { exfalso. apply mapM_None_1, Exists_exists in Hm as (idx & Hidx & Hnone).
    apply list_elem_of_In, in_seq in Hidx.
    unfold newPlayer in Hnone.
    destruct (lookup_lt_is_Some_2 roles' idx ltac:(lia)) as [r Hr].
    by rewrite Hr in Hnone. }
  destruct (newPlayers_spec _ _ _ _ _ _ _ Hm) as (Hid & Hrole & _).
  rewrite take_ge in Hrole by lia.
  destruct ps as [|human others].
  { destruct setupCount; [lia|done]. }
  exists (human :: others). split; [done|]. split; [done|]. split; [|done].
  destruct setupCount as [|n]; [lia|]. cbn in Hid. injection Hid as Hh _.
  cbn. by rewrite Hh.
Qed.



(** * Further properties of the code *)

(** ** The phase logic *)

Lemma winCheck_stopped (state : GameState) :
  phase state = SETUP \/ phase state = GAME_OVER -> winCheck state = None.
Proof. unfold winCheck. by intros [-> | ->]. Qed.

(** Once the phase logic has announced a winner it is done: the phase is
    [GAME_OVER] and the winner is set, and the evaluation of the phase
    that follows dispatches nothing, at once or later; so does every
    evaluation in [SETUP] and in [GAME_OVER]. *)
Theorem gameOver_is_final (o o' : Oracle) (state : GameState) (w : Winner) :
  winCheck state = Some w ->
  let state' := exec (immediate (runPhaseLogic o state)) state in
  phase state' = GAME_OVER /\
  winner state' = Some w /\
  dispatched (immediate (runPhaseLogic o' state')) = [] /\
  dispatched (afterwards (runPhaseLogic o' state')) = [] /\
  forall idle, phase idle = SETUP \/ phase idle = GAME_OVER ->
    dispatched (immediate (runPhaseLogic o' idle)) = [] /\
    dispatched (afterwards (runPhaseLogic o' idle)) = [].
Proof.
  intros Hw. destruct (announce_announced o w state Hw) as (_ & _ & Hwin & Hph & _).
  assert (forall idle, phase idle = SETUP \/ phase idle = GAME_OVER ->
            dispatched (immediate (runPhaseLogic o' idle)) = [] /\
            dispatched (afterwards (runPhaseLogic o' idle)) = []) as Hidle.
  { intros idle Hidle. unfold runPhaseLogic.
    rewrite (winCheck_stopped idle Hidle). unfold phaseTransitions.
    by destruct Hidle as [-> | ->]. }
  cbv zeta. split; [done|]. split; [done|].
  destruct (Hidle _ (or_intror Hph)) as [H1 H2].
  split; [exact H1|]. split; [exact H2|exact Hidle].
Qed.

Lemma gameOver_is_final_witness :
  phase (exec (immediate (runPhaseLogic quiet evenNight)) evenNight) = GAME_OVER /\
  dispatched (immediate (runPhaseLogic quiet
                (exec (immediate (runPhaseLogic quiet evenNight)) evenNight))) = [].
Proof.
  destruct (gameOver_is_final quiet quiet evenNight WEREWOLF_wins eq_refl)
    as (Hph & _ & Hnow & _).
  split; [exact Hph|exact Hnow].
Defined.

Lemma completes_handleBotWerewolfAction (o : Oracle) (state : GameState) :
  fair o -> completes (handleBotWerewolfAction o state).
Proof.
  intros Hfair. unfold handleBotWerewolfAction.
  destruct (Nat.ltb_spec 0 (length (aliveGoodPlayers state))) as [Hn|_];
    [|by eexists].
  destruct (lookup_lt_is_Some_2 _ _ (Hfair 0 _ Hn)) as [target ->].
  by eexists.
Qed.

(** In a phase of the night in which a role acts, the phase logic waits for
    the human exactly when the page offers the human the action: it then
    leaves nothing to a timer; otherwise the timer it sets runs to its end
    and moves the phase on.  In [DAY_VOTE], with the human in the roster,
    it waits exactly when the human is alive, and moves on to
    [DAY_EXECUTE] by itself otherwise. *)
Theorem phases_never_stall (o : Oracle) (state : GameState) :
  winCheck state = None ->
  (actingNight (phase state) ->
     (isHumanTurn state = true ->
        dispatched (afterwards (runPhaseLogic o state)) = []) /\
     (isHumanTurn state = false -> fair o ->
        completes (afterwards (runPhaseLogic o state)) /\
        In (NEXT_PHASE (afterNight (phase state)))
           (dispatched (afterwards (runPhaseLogic o state))))) /\
  (phase state = DAY_VOTE -> is_Some (getHumanPlayer state) ->
     (isHumanTurn state = true ->
        dispatched (afterwards (runPhaseLogic o state)) = []) /\
     (isHumanTurn state = false ->
        dispatched (afterwards (runPhaseLogic o state))
        = [NEXT_PHASE DAY_EXECUTE])).
Proof.
  intros Hwin. unfold runPhaseLogic. rewrite Hwin.
  unfold phaseTransitions, isHumanTurn, notHumansTurn, actingNight.
  split.
  - intros Hph.
    destruct (getHumanPlayer state) as [human|];
      destruct Hph as [-> | [-> | ->]]; cbn [immediate afterwards afterNight];
      unfold GamePhase_eqb, handleBotSeerAction, handleBotWitchAction;
      repeat (rewrite ?bool_decide_eq_true_2, ?bool_decide_eq_false_2 by done);
      cbn [andb orb];
      rewrite ?orb_false_r;
      (split; [intros Hturn|intros Hturn Hfair]);
      try (apply andb_true_iff in Hturn as [-> ->]; by cbn);
      try (apply andb_false_iff in Hturn as [-> | ->]; cbn [negb orb];
           rewrite ?orb_true_r);
      try done;
      try (split; [by eexists|cbn; auto]);
      (split;
       [apply completes_bind;
        [by apply completes_handleBotWerewolfAction|intros _; by eexists]
       |rewrite dispatched_seq by (by apply completes_handleBotWerewolfAction);
        apply in_or_app; right; by left]).
  - intros -> [human ->]. cbn [immediate afterwards].
    unfold GamePhase_eqb.
    repeat (rewrite ?bool_decide_eq_true_2, ?bool_decide_eq_false_2 by done).
    cbn [andb orb]. destruct (isAlive human); by split.
Qed.

Lemma phases_never_stall_witness :
  dispatched (afterwards (runPhaseLogic quiet wolfPack)) = [] /\
  In (NEXT_PHASE NIGHT_WITCH)
     (dispatched (afterwards (runPhaseLogic quiet (set_phase NIGHT_SEER wolfPack)))).
Proof.
  split.
  - destruct (phases_never_stall quiet wolfPack eq_refl) as [Hnight _].
    destruct (Hnight (or_introl eq_refl)) as [Hwait _]. by apply Hwait.
  - destruct (phases_never_stall quiet (set_phase NIGHT_SEER wolfPack) eq_refl)
      as [Hnight _].
    destruct (Hnight (or_intror (or_introl eq_refl))) as [_ Hgo].
    apply Hgo; [reflexivity|]. intros k n Hn. exact Hn.
Defined.

(** ** The night's end, again *)

Lemma kill_keeps_marks (p : Player) :
  diesTonight (set_isAlive false p) = diesTonight p /\
  id (set_isAlive false p) = id p /\
  set_isAlive false (set_isAlive false p) = set_isAlive false p.
Proof. done. Qed.

(** The store after the entry effects of [NIGHT_END]. *)
Lemma nightEnd_exec (o : Oracle) (state : GameState) :
  phase state = NIGHT_END -> winCheck state = None ->
  NoDup (map id (players state)) ->
  exec (immediate (runPhaseLogic o state)) state
  = set_phase DAY_ANNOUNCE
      (set_players
         (map (fun p => if diesTonight p then set_isAlive false p else p)
              (players state))
         state).
Proof.
  intros Hphase Hwin Hids.
  unfold runPhaseLogic, phaseTransitions. rewrite Hwin, Hphase. cbn [immediate].
  pose proof (completes_forEach_if (players state) diesTonight
                (fun p => UPDATE_PLAYER (id p) notAlive)) as Hc.
  pose proof (dispatched_forEach_if (players state) diesTonight
                (fun p => UPDATE_PLAYER (id p) notAlive)) as Hd.
  rewrite exec_seq by done. unfold exec at 2. rewrite Hd.
  rewrite (updateMany notAlive (set_isAlive false)) by done.
  unfold exec. cbn. unfold set_phase, set_players. cbn. f_equal.
  apply map_ext_in. intros p Hp. by rewrite namesakeIn_filter.
Qed.

Lemma length_filter_map {A B} (h : A -> B) (g : B -> bool) (l : list A) :
  length (List.filter g (map h l)) = length (List.filter (fun a => g (h a)) l).
Proof.
  induction l as [|a l IH]; [done|]. cbn. destruct (g (h a)); cbn; by rewrite IH.
Qed.

(** The win check looks at the phase and at who is alive in which role. *)
Lemma winCheck_same (s s' : GameState) :
  map (fun p => (isAlive p, role p)) (players s)
  = map (fun p => (isAlive p, role p)) (players s') ->
  (GamePhase_eqb (phase s) SETUP || GamePhase_eqb (phase s) GAME_OVER)
  = (GamePhase_eqb (phase s') SETUP || GamePhase_eqb (phase s') GAME_OVER) ->
  winCheck s = winCheck s'.
Proof.
  intros Hps Hph. unfold winCheck.
  set (h := fun p : Player => (isAlive p, role p)) in *.
  assert (forall g : bool * Role -> bool,
            length (List.filter (fun p => g (h p)) (players s))
            = length (List.filter (fun p => g (h p)) (players s'))) as Hlen.
  { intros g. rewrite <- (length_filter_map h g (players s)).
    rewrite <- (length_filter_map h g (players s')). by rewrite Hps. }
  assert (aliveWolves s = aliveWolves s') as ->.
  { exact (Hlen (fun x => fst x && Role_eqb (snd x) WEREWOLF)). }
  assert (aliveGood s = aliveGood s') as ->.
  { exact (Hlen (fun x => fst x && negb (Role_eqb (snd x) WEREWOLF))). }
  rewrite <- !negb_orb, Hph. reflexivity.
Qed.

(** The death resolution leaves the marks of the night in place, so that
    the entry effects of [NIGHT_END], run a second time on their own
    outcome, change nobody: the resolution is idempotent. *)
Theorem nightEnd_twice (o o' : Oracle) (state : GameState) :
  phase state = NIGHT_END -> winCheck state = None ->
  NoDup (map id (players state)) ->
  let once := exec (immediate (runPhaseLogic o state)) state in
  winCheck (set_phase NIGHT_END once) = None ->
  players (exec (immediate (runPhaseLogic o' (set_phase NIGHT_END once)))
                (set_phase NIGHT_END once))
  = players once.
Proof.
  intros Hphase Hwin Hids once Hwin'.
  assert (players once
          = map (fun p => if diesTonight p then set_isAlive false p else p)
                (players state)) as Honce.
  { unfold once. by rewrite nightEnd_exec. }
  rewrite nightEnd_exec; [|done|done|].
  - cbn. rewrite Honce, map_map. apply map_ext. intros p.
    destruct (diesTonight p) eqn:Hp; [|by rewrite Hp].
    by rewrite (proj1 (kill_keeps_marks p)), Hp.
  - cbn. rewrite Honce, map_map.
    rewrite (map_ext _ id); [done|]. intros p. by destruct (diesTonight p).
Qed.

Lemma nightEnd_twice_witness :
  players (exec (immediate (runPhaseLogic quiet
                   (set_phase NIGHT_END
                      (exec (immediate (runPhaseLogic quiet nightOver)) nightOver))))
                (set_phase NIGHT_END
                   (exec (immediate (runPhaseLogic quiet nightOver)) nightOver)))
  = players (exec (immediate (runPhaseLogic quiet nightOver)) nightOver).
Proof.
  apply (nightEnd_twice quiet quiet nightOver eq_refl eq_refl).
  - apply (bool_decide_unpack (NoDup (map id (players nightOver)))).
    vm_compute. exact I.
  - reflexivity.
Defined.

(** ** The witch's save and the night's end *)

(** The witch saves the werewolves' victim and declines the poison; the
    night then ends.  The victim is left as alive as it was unless it was
    poisoned, whatever its other marks, and everybody else meets the
    death resolution as marked. *)
Theorem saved_victim_survives (o o' : Oracle) (state : GameState) (killed : string) :
  phase state = NIGHT_WITCH -> winCheck state = None ->
  NoDup (map id (players state)) ->
  lastKilledId state = Some killed -> killed <> "" ->
  save (witchPotions state) = true ->
  let saved := exec (handleWitchSave o state) state in
  let declined := exec (skipPhase saved) saved in
  let morning := exec (immediate (runPhaseLogic o' declined)) declined in
  phase declined = NIGHT_END /\
  players morning
  = map (fun p =>
           if String.eqb (id p) killed
           then (if isPoisoned p
                 then set_isAlive false (set_marks false true p)
                 else set_marks false true p)
           else (if diesTonight p then set_isAlive false p else p))
        (players state) /\
  (forall p, In p (players state) -> id p = killed -> isPoisoned p = false ->
     In (set_marks false true p) (players morning)) /\
  save (witchPotions morning) = false.
Proof.
  intros Hphase Hwin Hids Hk Hne Hsave saved declined morning.
  assert (saved
          = set_logs (logs state ++
                        [{| LogMessage.id := uid o 0; LogMessage.sender := "系統";
                            LogMessage.text := "你使用了解藥。";
                            LogMessage.type := normal |}])
              (set_witchPotions
                 {| save := false; poison := poison (witchPotions state) |}
                 (set_players (onPlayer killed (set_marks false true) (players state))
                    state))) as Hsaved.
  { unfold saved, handleWitchSave. rewrite Hk, (truthy_Some _ Hne), Hsave.
    reflexivity. }
  assert (declined = set_phase NIGHT_END saved) as Hdeclined.
  { unfold declined, skipPhase. rewrite Hsaved. cbn [phase set_logs set_witchPotions set_players].
    rewrite Hphase. reflexivity. }
  assert (map id (players declined) = map id (players state)) as Hsame.
  { rewrite Hdeclined, Hsaved. cbn. unfold onPlayer. rewrite map_map.
    apply map_ext. intros p. by destruct (String.eqb (id p) killed). }
  assert (winCheck declined = None) as Hwin'.
  { rewrite <- Hwin. apply winCheck_same.
    - rewrite Hdeclined, Hsaved. cbn. unfold onPlayer. rewrite map_map.
      apply map_ext. intros p. by destruct (String.eqb (id p) killed).
    - rewrite Hdeclined. cbn. by rewrite Hphase. }
  assert (players morning
          = map (fun p =>
                   if String.eqb (id p) killed
                   then (if isPoisoned p
                         then set_isAlive false (set_marks false true p)
                         else set_marks false true p)
                   else (if diesTonight p then set_isAlive false p else p))
                (players state)) as Hmorning.
  { unfold morning. rewrite nightEnd_exec; [|by rewrite Hdeclined|done|by rewrite Hsame].
    cbn. rewrite Hdeclined, Hsaved. cbn. unfold onPlayer. rewrite map_map.
    apply map_ext. intros p. destruct (String.eqb (id p) killed); [|done].
    unfold diesTonight. cbn. by destruct (isPoisoned p). }
  split; [by rewrite Hdeclined|]. split; [exact Hmorning|]. split.
  - intros p Hp Hid Hpo. rewrite Hmorning. apply in_map_iff. exists p.
    split; [|done]. by rewrite Hid, String.eqb_refl, Hpo.
  - unfold morning. rewrite nightEnd_exec; [|by rewrite Hdeclined|done|by rewrite Hsame].
    rewrite Hdeclined, Hsaved. reflexivity.
Qed.

Lemma saved_victim_survives_witness :
  In (seat "p-2" VILLAGER true false true false None)
     (players
        (exec (immediate
                 (runPhaseLogic quiet
                    (exec (skipPhase (exec (handleWitchSave quiet witchNight) witchNight))
                          (exec (handleWitchSave quiet witchNight) witchNight))))
              (exec (skipPhase (exec (handleWitchSave quiet witchNight) witchNight))
                    (exec (handleWitchSave quiet witchNight) witchNight)))).
Proof.
  assert (NoDup (map id (players witchNight))) as Hids.
  { apply (bool_decide_unpack (NoDup (map id (players witchNight)))).
    vm_compute. exact I. }
  assert ("p-2" <> "") as Hne by discriminate.
  destruct (saved_victim_survives quiet quiet witchNight "p-2"
              eq_refl eq_refl Hids eq_refl Hne eq_refl) as (_ & _ & Hin & _).
  apply (Hin (seat "p-2" VILLAGER true true false false None)); [|done|done].
  cbn. tauto.
Defined.

(** ** The narration *)

Lemma getDefaultNarration_nonempty (ph : GamePhase) (day : nat) (dead : list string) :
  ph = NIGHT_START \/ ph = DAY_ANNOUNCE \/ ph = GAME_OVER ->
  getDefaultNarration ph day dead <> "".
Proof.
  intros [-> | [-> | ->]]; unfold getDefaultNarration;
    try destruct (0 <? length dead); cbn; done.
Qed.

Lemma orElse_nonempty (text : option string) (fallback : string) :
  fallback <> "" -> orElse text fallback <> "".
Proof.
  intros Hf. unfold orElse. destruct text as [t|]; [|done].
  destruct (truthy (Some t)) eqn:Ht; [|done]. by apply truthy_nonempty.
Qed.

(** Whatever the service does (no key, an error, an empty text), the
    narration of [NIGHT_START], of [DAY_ANNOUNCE] and of [GAME_OVER] is not
    empty, and that of every other phase is empty; every line that the
    phase logic logs for the host is one of the former: sent by HOST, with
    a text. *)
Theorem host_has_something_to_say (apiKey : option string)
    (reply : option (option string)) :
  (forall ph day dead,
     ph = NIGHT_START \/ ph = DAY_ANNOUNCE \/ ph = GAME_OVER ->
     generateHostNarration apiKey reply ph day dead <> "") /\
  (forall ph day dead,
     ph <> NIGHT_START -> ph <> DAY_ANNOUNCE -> ph <> GAME_OVER ->
     generateHostNarration apiKey reply ph day dead = "") /\
  (forall o state line,
     In (ADD_LOG line)
        (dispatched (afterwards (runPhaseLogic (served apiKey reply state o) state))) ->
     LogMessage.type line = narrative ->
     LogMessage.sender line = "HOST" /\ LogMessage.text line <> "").
Proof.
  assert (forall ph day dead,
            ph = NIGHT_START \/ ph = DAY_ANNOUNCE \/ ph = GAME_OVER ->
            generateHostNarration apiKey reply ph day dead <> "") as Hsays.
  { intros ph day dead Hph. unfold generateHostNarration.
    pose proof (getDefaultNarration_nonempty ph day dead Hph) as Hdef.
    destruct (negb (truthy apiKey)); [done|].
    destruct Hph as [-> | [-> | ->]];
      (destruct reply as [text|]; [by apply orElse_nonempty|done]). }
  split; [exact Hsays|]. split.
  - intros ph day dead H1 H2 H3. unfold generateHostNarration.
    destruct (negb (truthy apiKey)); by destruct ph.
  - intros o state line. unfold runPhaseLogic, served, hostNarration.
    destruct (winCheck state) as [w|] eqn:Hw.
    + cbn. intros [[= <-]|[]] _. split; [done|]. cbn. apply Hsays. auto.
    + unfold phaseTransitions.
      destruct (phase state) eqn:Hph; cbn [afterwards narration];
        try (cbn; by intros []);
        try (cbn; intros [[= <-]|[H|[]]]; [|done]; intros _;
             split; [done|]; cbn; apply Hsays; auto).
      * destruct (notHumansTurn _ _); [|by intros []].
        intros Hin. exfalso. unfold handleBotWerewolfAction in Hin.
        destruct (0 <? _); [|by destruct Hin as [|[]]].
        destruct (_ !! _); cbn in Hin; [|done].
        by decompose [or] Hin.
      * destruct (notHumansTurn _ _); cbn; [|by intros []].
        by intros [|[]].
      * destruct (notHumansTurn _ _); cbn; [|by intros []].
        by intros [|[]].
      * destruct (match getHumanPlayer state with Some _ => _ | None => _ end);
          cbn; [|by intros []]. by intros [|[]].
      * cbn. intros Hin. by decompose [or] Hin.
Qed.

Lemma host_has_something_to_say_witness :
  generateHostNarration (Some "key") (Some (Some "")) DAY_ANNOUNCE 2 ["Amy"; "Bob"]
  = getDefaultNarration DAY_ANNOUNCE 2 ["Amy"; "Bob"] /\
  generateHostNarration (Some "key") (Some (Some "")) DAY_ANNOUNCE 2 ["Amy"; "Bob"]
  <> "".
Proof.
  split; [reflexivity|].
  apply (proj1 (host_has_something_to_say (Some "key") (Some (Some "")))). auto.
Defined.

Lemma diesTonight_marked (p : Player) :
  diesTonight p = true -> isDying p || isPoisoned p = true.
Proof.
  unfold diesTonight.
  destruct (isDying p), (isProtected p), (isPoisoned p); by cbn.
Qed.

Lemma newlyDead_after (ps : list Player) :
  (forall p, In p ps -> isAlive p = false ->
     isDying p = false /\ isPoisoned p = false) ->
  map name
    (List.filter (fun p => negb (isAlive p) && (isDying p || isPoisoned p))
       (map (fun p => if diesTonight p then set_isAlive false p else p) ps))
  = map name (List.filter diesTonight ps).
Proof.
  induction ps as [|p ps IH]; intros Hdead; [done|].
  assert (forall q, In q ps -> isAlive q = false ->
            isDying q = false /\ isPoisoned q = false) as Hps.
  { intros q Hq. apply Hdead. by right. }
  specialize (IH Hps). cbn [map List.filter].
  destruct (diesTonight p) eqn:Hp.
  - cbn. rewrite (diesTonight_marked p Hp). cbn. by rewrite IH.
  - destruct (isAlive p) eqn:Ha; cbn; [done|].
    destruct (Hdead p (or_introl eq_refl) Ha) as [-> ->]. by cbn.
Qed.

(** After a night's end on a roster whose dead carry no mark, the players
    that [DAY_ANNOUNCE] takes for newly dead are, in seating order, the
    players that the death resolution has just removed.  With the service
    out of reach (no key, or a call that throws) and no winner yet, the
    morning's narration is the line of the peaceful night when there is
    none, and otherwise the line that lists their names. *)
Theorem morning_names_the_dead (o : Oracle) (apiKey : option string)
    (reply : option (option string)) (state : GameState) :
  phase state = NIGHT_END -> winCheck state = None ->
  NoDup (map id (players state)) ->
  (forall p, In p (players state) -> isAlive p = false ->
     isDying p = false /\ isPoisoned p = false) ->
  let morning := exec (immediate (runPhaseLogic o state)) state in
  let victims := List.filter diesTonight (players state) in
  phase morning = DAY_ANNOUNCE /\
  map name (newlyDead morning) = map name victims /\
  (forall p, In p victims -> isAlive p = true) /\
  (winCheck morning = None -> truthy apiKey = false \/ reply = None ->
   hostNarration apiKey reply morning
   = match victims with
     | [] => "天亮了。昨晚是平安夜。"
     | _ => "天亮了。昨晚 " +:+ join ", " (map name victims) +:+ " 死亡。"
     end).
Proof.
  intros Hphase Hwin Hids Hdead morning victims.
  assert (morning = set_phase DAY_ANNOUNCE
                      (set_players
                         (map (fun p => if diesTonight p then set_isAlive false p else p)
                              (players state)) state)) as Hmorning.
  { unfold morning. by apply nightEnd_exec. }
  assert (map name (newlyDead morning) = map name victims) as Hnames.
  { rewrite Hmorning. unfold newlyDead, victims. cbn. by apply newlyDead_after. }
  split; [by rewrite Hmorning|]. split; [exact Hnames|]. split.
  - intros p [Hp Hdies]%filter_In.
    destruct (isAlive p) eqn:Ha; [done|].
    destruct (Hdead p Hp Ha) as [Hd Hpo].
    unfold diesTonight in Hdies. by rewrite Hd, Hpo in Hdies.
  - intros Hwin' Hout. unfold hostNarration. rewrite Hwin'.
    replace (phase morning) with DAY_ANNOUNCE by (by rewrite Hmorning).
    rewrite Hnames.
    assert (generateHostNarration apiKey reply DAY_ANNOUNCE (dayCount morning)
              (map name victims)
            = getDefaultNarration DAY_ANNOUNCE (dayCount morning) (map name victims))
      as ->.
    { unfold generateHostNarration. destruct Hout as [-> | ->]; [done|].
      by destruct (negb (truthy apiKey)). }
    unfold getDefaultNarration. by destruct victims.
Qed.

Lemma morning_names_the_dead_witness :
  hostNarration None None
    (exec (immediate (runPhaseLogic quiet nightOver)) nightOver)
  = "天亮了。昨晚 p-0, p-3 死亡。".
Proof.
  assert (NoDup (map id (players nightOver))) as Hids.
  { apply (bool_decide_unpack (NoDup (map id (players nightOver)))).
    vm_compute. exact I. }
  assert (forall p, In p (players nightOver) -> isAlive p = false ->
            isDying p = false /\ isPoisoned p = false) as Hdead.
  { intros p Hp Ha. cbn in Hp. decompose [or] Hp; subst; by cbn in Ha. }
  destruct (morning_names_the_dead quiet None None nightOver
              eq_refl eq_refl Hids Hdead) as (_ & _ & _ & Hline).
  rewrite Hline; [reflexivity|reflexivity|by left].
Defined.

(** ** The votes of the bots *)

Lemma others_nonempty (alive : list Player) (bot : Player) :
  0 < length (List.filter (fun p => negb (String.eqb (id p) (id bot))) alive) <->
  exists q, In q alive /\ id q <> id bot.
Proof.
  split.
  - intros (q & Hq & Hne)%filter_nonempty. exists q. split; [done|].
    apply negb_true_iff in Hne. by apply String.eqb_neq.
  - intros (q & Hq & Hne).
    assert (In q (List.filter (fun p => negb (String.eqb (id p) (id bot))) alive)) as Hin.
    { apply filter_In. split; [done|]. apply negb_true_iff. by apply String.eqb_neq. }
    destruct (List.filter _ alive); [done|cbn; lia].
Qed.

(** The loop over the alive players as a list of ballots. *)
Lemma botVotes_ballots (o : Oracle) (alive : list Player) (k : nat)
    (rest : list Player) :
  fair o ->
  exists ballots,
    botVotes o alive k rest = (map castBallot ballots, Some tt) /\
    Forall (fun ballot =>
              In (fst ballot) rest /\ isBot (fst ballot) = true /\
              In (snd ballot) alive /\ id (snd ballot) <> id (fst ballot))
           ballots /\
    (forall bot, In bot rest -> isBot bot = true ->
       (exists q, In q alive /\ id q <> id bot) ->
       exists target, In (bot, target) ballots).
Proof.
  intros Hfair. revert k. induction rest as [|bot rest IH]; intros k.
  - exists []. split; [done|]. split; [constructor|]. by intros bot [].
  - destruct (IH (S k)) as (ballots & Heq & Hall & Hcover). clear IH.
    assert (Forall (fun ballot =>
                      In (fst ballot) (bot :: rest) /\ isBot (fst ballot) = true /\
                      In (snd ballot) alive /\ id (snd ballot) <> id (fst ballot))
                   ballots) as Hall'.
    { eapply Forall_impl; [exact Hall|]. intros [b t] (? & ? & ? & ?).
      repeat split; try done. by right. }
    cbn [botVotes]. rewrite Heq.
    set (others := List.filter (fun p => negb (String.eqb (id p) (id bot))) alive).
    destruct (isBot bot) eqn:Hbot; cycle 1.
    { exists ballots. split; [done|]. split; [done|].
      intros b [<-|Hb] Hb' Hq; [congruence|].
      destruct (Hcover b Hb Hb' Hq) as [t Ht]. by exists t. }
    destruct (Nat.ltb_spec 0 (length others)) as [Hn|Hn]; cycle 1.
    { exists ballots. split; [done|]. split; [done|].
      intros b [<-|Hb] Hb' Hq.
      - apply others_nonempty in Hq. fold others in Hq. lia.
      - destruct (Hcover b Hb Hb' Hq) as [t Ht]. by exists t. }
    destruct (lookup_lt_is_Some_2 others _ (Hfair k _ Hn)) as [target Ht].
    rewrite Ht. exists ((bot, target) :: ballots). split; [done|].
    assert (In target alive /\ id target <> id bot) as [Hin Hne].
    { apply list_elem_of_lookup_2, list_elem_of_In, filter_In in Ht as [? Hne].
      split; [done|]. apply negb_true_iff in Hne. by apply String.eqb_neq. }
    split.
    + constructor; [|done]. cbn. repeat split; try done. by left.
    + intros b [<-|Hb] Hb' Hq.
      * exists target. by left.
      * destruct (Hcover b Hb Hb' Hq) as [t Ht']. exists t. by right.
Qed.

Lemma exec_ballots (ballots : list (Player * Player)) (s : GameState) :
  fold_left gameReducer (map castBallot ballots) s
  = set_players
      (map (fun p => match ballotOf ballots p with
                     | Some ballot => set_voteTargetId (Some (id (snd ballot))) p
                     | None => p
                     end)
           (players s))
      s.
Proof.
  induction ballots as [|[b t] ballots IH] using rev_ind.
  - cbn. rewrite map_id. unfold set_players. by rewrite GameState_eta.
  - rewrite map_app, fold_left_app, IH. cbn [map fold_left].
    unfold castBallot. cbn [fst snd]. rewrite reduce_UPDATE_PLAYER.
    unfold set_players, onPlayer. cbn. f_equal. rewrite map_map.
    apply map_ext. intros p. unfold ballotOf. rewrite rev_app_distr. cbn [rev app find fst].
    assert (id (match find (fun ballot => String.eqb (id p) (id (fst ballot)))
                        (rev ballots) with
                | Some ballot => set_voteTargetId (Some (id (snd ballot))) p
                | None => p
                end) = id p) as ->.
    { by destruct (find _ _). }
    rewrite (String.eqb_sym (id p) (id b)).
    destruct (String.eqb (id b) (id p)); [|done].
    by destruct (find _ _).
Qed.

Lemma NoDup_ids_eq (ps : list Player) (p q : Player) :
  NoDup (map id ps) -> In p ps -> In q ps -> id p = id q -> p = q.
Proof.
  induction ps as [|r ps IH]; [done|].
  intros [Hr Hnd]%NoDup_cons [->|Hp] [->|Hq] Heq; try done.
  - exfalso. apply Hr. rewrite Heq. apply list_elem_of_In, in_map, Hq.
  - exfalso. apply Hr. rewrite <- Heq. apply list_elem_of_In, in_map, Hp.
  - by apply IH.
Qed.

(** With fair draws the votes of the bots never throw.  On a roster of
    distinct ids, seat by seat: an alive bot with somebody else alive ends
    with a vote for an alive player that is not itself, and is otherwise
    unchanged; every other player (the human, the dead, a bot alone) is
    left as it was, and so is the rest of the state. *)
Theorem handleBotVoting_spec (o : Oracle) (state : GameState) :
  fair o -> NoDup (map id (players state)) ->
  let state' := exec (handleBotVoting o state) state in
  completes (handleBotVoting o state) /\
  state' = set_players (players state') state /\
  Forall2
    (fun p p' =>
       (botVoter state p ->
          exists target,
            In target (players state) /\ isAlive target = true /\
            id target <> id p /\
            p' = set_voteTargetId (Some (id target)) p) /\
       (~ botVoter state p -> p' = p))
    (players state) (players state').
Proof.
  intros Hfair Hids state'. unfold state', handleBotVoting, exec.
  set (alive := List.filter isAlive (players state)).
  destruct (botVotes_ballots o alive 0 alive Hfair)
    as (ballots & Heq & Hall & Hcover).
  rewrite Heq. cbn [dispatched fst]. rewrite exec_ballots.
  split; [by eexists|]. split; [done|]. cbn [players set_players].
  assert (forall p ballot, ballotOf ballots p = Some ballot ->
            id (fst ballot) = id p /\
            In (fst ballot) (players state) /\ isAlive (fst ballot) = true /\
            isBot (fst ballot) = true /\
            In (snd ballot) (players state) /\ isAlive (snd ballot) = true /\
            id (snd ballot) <> id p) as Hballot.
  { intros p ballot Hf. apply find_some in Hf as [Hin Hid].
    apply String.eqb_eq in Hid. apply in_rev in Hin.
    pose proof (proj1 (List.Forall_forall _ _) Hall _ Hin) as (Hb & Hbot & Ht & Hne).
    apply filter_In in Hb as [Hb Hba]. apply filter_In in Ht as [Ht Hta].
    repeat split; try done. congruence. }
  apply Forall2_fmap_r, Forall_Forall2_diag, List.Forall_forall.
  intros p Hp. split.
  - intros (Ha & Hb & q & Hq & Hqa & Hne).
    assert (exists target, In (p, target) ballots) as [target Htarget].
    { apply Hcover; [by apply filter_In|done|].
      exists q. split; [by apply filter_In|done]. }
    destruct (ballotOf ballots p) as [ballot|] eqn:Hf.
    + destruct (Hballot p ballot Hf) as (_ & _ & _ & _ & Ht & Hta & Htne).
      by exists (snd ballot).
    + exfalso. apply in_rev in Htarget.
      pose proof (find_none _ _ Hf (p, target) Htarget) as Hno.
      cbn in Hno. by rewrite String.eqb_refl in Hno.
  - intros Hnot. destruct (ballotOf ballots p) as [ballot|] eqn:Hf; [|done].
    exfalso. apply Hnot.
    destruct (Hballot p ballot Hf) as (Hid & Hb & Hba & Hbot & Ht & Hta & Htne).
    assert (fst ballot = p) as Hsame by (by apply (NoDup_ids_eq (players state))).
    rewrite Hsame in *. split; [done|]. split; [done|]. by exists (snd ballot).
Qed.

Lemma handleBotVoting_spec_witness :
  players (exec (handleBotVoting quiet (set_phase DAY_VOTE secondNight))
                (set_phase DAY_VOTE secondNight)) =
    [seat "p-0" VILLAGER true false false false (Some "p-1");
     seat "p-1" WEREWOLF true false false false (Some "p-0");
     seat "p-2" WITCH true true true false (Some "p-0");
     seat "p-3" SEER false false false true None] /\
  completes (handleBotVoting quiet (set_phase DAY_VOTE secondNight)).
Proof.
  assert (fair quiet) as Hfair by (intros k n Hn; exact Hn).
  assert (NoDup (map id (players (set_phase DAY_VOTE secondNight)))) as Hids.
  { apply (bool_decide_unpack
             (NoDup (map id (players (set_phase DAY_VOTE secondNight))))).
    vm_compute. exact I. }
  destruct (handleBotVoting_spec quiet (set_phase DAY_VOTE secondNight) Hfair Hids)
    as (Hdone & _ & _).
  split; [reflexivity|exact Hdone].
Defined.

(** ** The confirmation of the human *)

Lemma truthy_None_or_empty (x : option string) (s : string) :
  x = Some s -> truthy x = true -> s <> "".
Proof. intros -> H. by apply truthy_nonempty. Qed.

(** The confirmation dispatches something, at once or through its timer,
    exactly when the human is alive, a target is selected and the phase is
    the werewolves' (the human being a werewolf), the seer's (the human
    being the seer) or the vote: in every other case, the witch's turn and
    the discussion among them, it is a no-op. *)
Theorem handleHumanAction_noop (o : Oracle) (sel : option string)
    (state : GameState) :
  (dispatched (immediate (handleHumanAction o sel state)) = [] /\
   dispatched (afterwards (handleHumanAction o sel state)) = [])
  <-> ~ confirms state sel.
Proof.
  unfold confirms, handleHumanAction.
  destruct (getHumanPlayer state) as [human|]; cycle 1.
  { split; [|done]. intros _ (h & Hh & _). discriminate Hh. }
  destruct (isAlive human) eqn:Ha; cbn [negb]; cycle 1.
  { split; [|done]. intros _ (h & Hh & Ha' & _).
    injection Hh as <-. congruence. }
  destruct sel as [x|]; cycle 1.
  { cbn [truthy negb andb].
    split; [intros _ (h & _ & _ & Hsel & _); discriminate Hsel|intros _].
    by destruct (phase state), (role human). }
  destruct (truthy (Some x)) eqn:Hsel; cbn [negb andb]; cycle 1.
  { split; [intros _ (h & _ & _ & Hsel' & _); discriminate Hsel'|intros _].
    by destruct (phase state), (role human). }
  unfold GamePhase_eqb, Role_eqb.
  destruct (phase state) eqn:Hph, (role human) eqn:Hr; cbn;
    try (split;
         [intros _ (h & Hh & _ & _ & Hcase); injection Hh as <-;
          destruct Hcase as [[? ?]|[[? ?]|?]]; congruence
         |done]);
    try (split;
         [intros [H1 H2]; (discriminate H1 || discriminate H2)
         |intros Hnot; exfalso; apply Hnot; exists human;
          split; [done|split; [done|split; [done|auto]]]]).
Qed.

Lemma handleHumanAction_noop_witness :
  dispatched (immediate (handleHumanAction quiet (Some "p-2") witchNight)) = [] /\
  dispatched (afterwards (handleHumanAction quiet (Some "p-2") witchNight)) = [].
Proof.
  apply (handleHumanAction_noop quiet (Some "p-2") witchNight).
  intros (h & Hh & _ & _ & Hcase).
  cbn in Hh. injection Hh as <-.
  destruct Hcase as [[H _]|[[H _]|H]]; discriminate.
Defined.

(** The inspection of the seer reads and does not write: the roster, the
    potions, the victim, the winner and the phase are as they were, and
    the timer moves on to the witch.  The result is the name of the first
    player of the roster with the selected id and whether its role is
    WEREWOLF, alive or not; an id of nobody leaves the whole state as it
    was. *)
Theorem seer_reads_only (o : Oracle) (state : GameState) (human : Player)
    (x : string) :
  getHumanPlayer state = Some human -> isAlive human = true ->
  role human = SEER -> phase state = NIGHT_SEER -> x <> "" ->
  let run := handleHumanAction o (Some x) state in
  let state' := exec (immediate run) state in
  players state' = players state /\
  witchPotions state' = witchPotions state /\
  lastKilledId state' = lastKilledId state /\
  winner state' = winner state /\
  phase state' = NIGHT_SEER /\
  dispatched (afterwards run) = [NEXT_PHASE NIGHT_WITCH] /\
  match find (fun p => String.eqb (id p) x) (players state) with
  | Some target =>
      seerCheckResult state'
      = Some {| SeerResult.name := name target;
                SeerResult.isWerewolf := bool_decide (role target = WEREWOLF) |}
  | None => state' = state
  end.
Proof.
  intros Hh Ha Hr Hph Hx. unfold handleHumanAction.
  rewrite Hh, Ha, (truthy_Some _ Hx), Hph, Hr. cbn.
  destruct (find _ (players state)) as [target|]; cbn; by rewrite ?Hph.
Qed.

Lemma seer_reads_only_witness :
  seerCheckResult
    (exec (immediate (handleHumanAction quiet (Some "p-1")
                        (table NIGHT_SEER
                           [seat "p-0" SEER true false false false None;
                            seat "p-1" WEREWOLF true false false false None;
                            seat "p-2" VILLAGER true false false false None;
                            seat "p-3" WITCH true false false false None]
                           {| save := true; poison := true |} None)))
          (table NIGHT_SEER
             [seat "p-0" SEER true false false false None;
              seat "p-1" WEREWOLF true false false false None;
              seat "p-2" VILLAGER true false false false None;
              seat "p-3" WITCH true false false false None]
             {| save := true; poison := true |} None))
  = Some {| SeerResult.name := "p-1"; SeerResult.isWerewolf := true |}.
Proof.
  assert ("p-1" <> "") as Hx by discriminate.
  destruct (seer_reads_only quiet
              (table NIGHT_SEER
                 [seat "p-0" SEER true false false false None;
                  seat "p-1" WEREWOLF true false false false None;
                  seat "p-2" VILLAGER true false false false None;
                  seat "p-3" WITCH true false false false None]
                 {| save := true; poison := true |} None)
              (seat "p-0" SEER true false false false None) "p-1"
              eq_refl eq_refl eq_refl eq_refl Hx)
    as (_ & _ & _ & _ & _ & _ & Hres).
  exact Hres.
Defined.



(** ** What a game never does *)

Section Every.
Variable P : Action -> Prop.

Lemma every_skip : every P skip.
Proof using Type. constructor. Qed.

Lemma every_throw {A} : every P (@throw A).
Proof using Type. constructor. Qed.

Lemma every_dispatch (a : Action) : P a -> every P (dispatch a).
Proof using Type. intros H. by constructor. Qed.

Lemma every_bind {A B} (m : Eff A) (k : A -> Eff B) :
  every P m -> (forall a, every P (k a)) -> every P (bind m k).
Proof using Type.
  unfold every. destruct m as [acts [a|]]; cbn; intros Hm Hk; [|done].
  specialize (Hk a). destruct (k a) as [acts' r]. cbn in *.
  apply Forall_app. by split.
Qed.

Lemma every_forEach {A} (l : list A) (f : A -> Eff unit) :
  (forall x, every P (f x)) -> every P (forEach l f).
Proof using Type.
  intros Hf. induction l as [|x l IH]; [apply every_skip|].
  cbn [forEach]. by apply every_bind.
Qed.
End Every.

Ltac every_step :=
  first
    [ apply every_skip | apply every_throw
    | apply every_dispatch; constructor
    | apply every_bind; [|intros ?]
    | apply every_forEach; intros ?
    | progress cbn [immediate afterwards]
    | progress unfold addLog
    | case_match ].

Lemma botVotes_actions o alive k rest : every gameAction (botVotes o alive k rest).
Proof.
  revert k. induction rest as [|bot rest IH]; intros k; cbn [botVotes].
  - apply every_skip.
  - apply every_bind; [|intros _; apply IH]. repeat every_step.
Qed.

Lemma runPhaseLogic_actions o s0 :
  every gameAction (immediate (runPhaseLogic o s0)) /\
  every gameAction (afterwards (runPhaseLogic o s0)).
Proof.
  unfold runPhaseLogic, announce, phaseTransitions, handleBotWerewolfAction,
    handleBotSeerAction, handleBotWitchAction, handleBotVoting.
  split; repeat first [apply botVotes_actions | every_step].
Qed.

(** The handlers of a game dispatch nothing but actions of these shapes. *)
Lemma inGame_actions (s0 : GameState) (m : Eff unit) :
  inGame s0 m -> every gameAction m.
Proof.
  destruct 1;
    try apply runPhaseLogic_actions;
    unfold handleHumanAction, handleWitchSave, handleWitchPoison, skipPhase,
      handleSendChat, runAutoDiscussion;
    repeat every_step.
Qed.

Lemma step_action (s s' : GameState) :
  step s s' -> exists a, gameAction a /\ s' = gameReducer s a.
Proof.
  intros (s0 & m & a & Hm & Ha & ->). exists a. split; [|done].
  apply inGame_actions in Hm. by apply (proj1 (List.Forall_forall _ _) Hm).
Qed.

Lemma sameSeat_refl (p : Player) : sameSeat p p.
Proof. by repeat split. Qed.

Lemma sameSeat_trans (p q r : Player) : sameSeat p q -> sameSeat q r -> sameSeat p r.
Proof.
  intros (H1 & H2 & H3 & H4 & H5 & H6 & H7) (K1 & K2 & K3 & K4 & K5 & K6 & K7).
  repeat split; try congruence. auto.
Qed.

Lemma gameAction_seats (a : Action) (s : GameState) :
  gameAction a ->
  Forall2 sameSeat (players s) (players (gameReducer s a)) /\
  humanPlayerId (gameReducer s a) = humanPlayerId s.
Proof.
  assert (Forall2 sameSeat (players s) (players s)) as Hrefl.
  { apply Forall_Forall2_diag, List.Forall_forall. intros p _. apply sameSeat_refl. }
  intros Ha. split; [|by destruct Ha].
  destruct Ha; try exact Hrefl;
    (cbn; apply Forall2_fmap_r, Forall_Forall2_diag, List.Forall_forall;
     intros p _; simpl; destruct (String.eqb (id p) x);
     [by repeat split|apply sameSeat_refl]).
Qed.

(** Over a game the seats do not move: whatever the handlers dispatch, in
    whatever order, the roster keeps its length and its order, every
    player keeps its id, name, role, kind, avatar and [hasActed], a player
    that is not alive never is again, and the human stays the human. *)
Theorem roster_is_stable (s s' : GameState) :
  steps s s' ->
  Forall2 sameSeat (players s) (players s') /\
  humanPlayerId s' = humanPlayerId s.
Proof.
  induction 1 as [s|s s1 s2 Hstep _ [IH1 IH2]].
  - split; [|done]. apply Forall_Forall2_diag, List.Forall_forall.
    intros p _. apply sameSeat_refl.
  - apply step_action in Hstep as (a & Ha & ->).
    destruct (gameAction_seats a s Ha) as [H1 H2].
    split; [|congruence].
    clear -H1 IH1. revert IH1. generalize (players s2).
    induction H1 as [|p q ps qs Hpq _ IH]; intros rs Hrs.
    + by inversion Hrs.
    + inversion Hrs as [|q' r qs' rs' Hqr Hrest]; subst.
      constructor; [by eapply sameSeat_trans|by apply IH].
Qed.

Lemma roster_is_stable_witness :
  Forall2 sameSeat (players nightOver)
    (players (gameReducer nightOver (UPDATE_PLAYER "p-0" notAlive))).
Proof.
  apply roster_is_stable.
  eapply steps_step; [|apply steps_refl].
  exists nightOver, (immediate (runPhaseLogic quiet nightOver)),
    (UPDATE_PLAYER "p-0" notAlive).
  split; [constructor|]. split; [|reflexivity]. vm_compute. auto.
Defined.

Lemma gameAction_grows (a : Action) (s : GameState) :
  gameAction a ->
  (exists more, logs (gameReducer s a) = logs s ++ more) /\
  dayCount s <= dayCount (gameReducer s a).
Proof.
  intros Ha. destruct Ha; cbn; (split; [|lia]);
    try (exists []; by rewrite app_nil_r).
  by eexists.
Qed.

(** Over a game the log only grows, by lines added at its end, and the
    day count never goes down. *)
Theorem log_only_grows (s s' : GameState) :
  steps s s' ->
  (exists more, logs s' = logs s ++ more) /\ dayCount s <= dayCount s'.
Proof.
  induction 1 as [s|s s1 s2 Hstep _ [[more2 IH1] IH2]].
  - split; [|lia]. exists []. by rewrite app_nil_r.
  - apply step_action in Hstep as (a & Ha & ->).
    destruct (gameAction_grows a s Ha) as [[more1 H1] H2].
    split; [|lia]. exists (more1 ++ more2). by rewrite IH1, H1, app_assoc.
Qed.

Lemma log_only_grows_witness :
  exists more,
    logs (gameReducer
            (gameReducer witchNight (SET_WITCH_POTION save_potion true))
            (ADD_LOG {| LogMessage.id := "0"; LogMessage.sender := "系統";
                        LogMessage.text := "你使用了解藥。";
                        LogMessage.type := normal |}))
    = logs witchNight ++ more.
Proof.
  apply log_only_grows.
  eapply steps_step; [|eapply steps_step; [|apply steps_refl]].
  - exists witchNight, (handleWitchSave quiet witchNight),
      (SET_WITCH_POTION save_potion true).
    split; [constructor|]. split; [|reflexivity]. vm_compute. auto.
  - exists witchNight, (handleWitchSave quiet witchNight),
      (ADD_LOG {| LogMessage.id := "0"; LogMessage.sender := "系統";
                  LogMessage.text := "你使用了解藥。";
                  LogMessage.type := normal |}).
    split; [constructor|]. split; [|reflexivity]. vm_compute. auto.
Defined.

(** ** The states of a game, an example *)

Lemma reachable_hypotheses_witness :
  NoDup (map id (players firstNight)) /\ votesWellFormed firstNight /\
  lastKilledId firstNight <> Some "".
Proof.
  apply reachable_hypotheses.
  assert (exists newPlayers humanId,
            dispatched (handleStartGame sampleTable quiet "Ann" "Ann" "ann.png" 6 []
                          (fun _ => "bot.png"))
            = [START_GAME newPlayers humanId]) as (ps & h & Hd).
  { vm_compute. eauto. }
  unfold firstNight, exec. rewrite Hd. cbn [fold_left].
  eapply reach_start; [|apply reach_initial].
  rewrite Hd. by left.
Defined.

Lemma handleBotWerewolfAction_spec_witness :
  completes (handleBotWerewolfAction quiet (set_phase NIGHT_WEREWOLF witchNight)) /\
  exists target,
    In target (players (set_phase NIGHT_WEREWOLF witchNight)) /\
    role target <> WEREWOLF /\
    lastKilledId (exec (handleBotWerewolfAction quiet
                          (set_phase NIGHT_WEREWOLF witchNight))
                       (set_phase NIGHT_WEREWOLF witchNight))
    = Some (id target).
Proof.
  assert (fair quiet) as Hfair by (intros k n Hn; exact Hn).
  destruct (handleBotWerewolfAction_spec quiet
              (set_phase NIGHT_WEREWOLF witchNight) Hfair) as (Hdone & _ & Hkill).
  split; [exact Hdone|].
  destruct Hkill as (target & Hin & _ & Hrole & Hk & _); [by vm_compute|].
  exists target. by repeat split.
Defined.

(** ** The reducer: updates of different players *)

(** Two updates of players of different ids, neither of which renames a
    player, can go through the reducer in either order. *)
Theorem updates_commute (s : GameState) (x y : string) (u v : PartialPlayer) :
  x <> y -> upd_id u = None -> upd_id v = None ->
  gameReducer (gameReducer s (UPDATE_PLAYER x u)) (UPDATE_PLAYER y v)
  = gameReducer (gameReducer s (UPDATE_PLAYER y v)) (UPDATE_PLAYER x u).
Proof.
  intros Hxy Hu Hv. rewrite !reduce_UPDATE_PLAYER.
  unfold set_players, onPlayer. cbn. f_equal. rewrite !map_map.
  apply map_ext. intros p.
  assert (id (spread p u) = id p) as Hidu by (cbn; by rewrite Hu).
  assert (id (spread p v) = id p) as Hidv by (cbn; by rewrite Hv).
  destruct (String.eqb (id p) x) eqn:Ex, (String.eqb (id p) y) eqn:Ey;
    rewrite ?Hidu, ?Hidv, ?Ex, ?Ey; try reflexivity.
  apply String.eqb_eq in Ex, Ey. congruence.
Qed.

Lemma updates_commute_witness :
  gameReducer (gameReducer nightOver (UPDATE_PLAYER "p-0" notAlive))
    (UPDATE_PLAYER "p-3" notAlive)
  = gameReducer (gameReducer nightOver (UPDATE_PLAYER "p-3" notAlive))
      (UPDATE_PLAYER "p-0" notAlive).
Proof.
  apply updates_commute; [discriminate|reflexivity|reflexivity].
Defined.

(** ** The tally, whatever the order of the entries *)

Lemma allPositive_perm (votes votes' : list (string * nat)) :
  votes ≡ₚ votes' -> allPositive votes -> allPositive votes'.
Proof. unfold allPositive. by intros ->. Qed.

Lemma tally_top (votes : list (string * nat)) (v : string) :
  allPositive votes -> NoDup (map fst votes) ->
  victimId (tally votes) = Some v ->
  In (v, maxVotes (tally votes)) votes /\
  (forall e, In e votes -> snd e <= maxVotes (tally votes)) /\
  (tie (tally votes) = true <->
   exists y, y <> v /\ In (y, maxVotes (tally votes)) votes).
Proof.
  intros Hpos Hnd Hv. destruct (tally_inv votes Hpos Hnd) as [Hmax Hvic].
  rewrite Hv in Hvic. destruct Hvic as [Hin Htie].
  split; [exact Hin|]. split; [exact Hmax|exact Htie].
Qed.

(** The outcome of the tally does not depend on the order in which
    [Object.entries] lists the candidates: two lists of the same entries
    lead to the same execution, or to none. *)
Theorem verdict_any_order (votes votes' : list (string * nat)) :
  votes ≡ₚ votes' -> allPositive votes -> NoDup (map fst votes) ->
  verdict votes = verdict votes'.
Proof.
  intros Hperm Hpos Hnd.
  assert (allPositive votes') as Hpos' by (by eapply allPositive_perm).
  assert (NoDup (map fst votes')) as Hnd' by (by rewrite <- Hperm).
  assert (forall e, In e votes <-> In e votes') as Hin.
  { intros e. rewrite <- !list_elem_of_In. by rewrite Hperm. }
  unfold verdict.
  destruct (victimId (tally votes)) as [v|] eqn:Hv; cycle 1.
  { destruct (tally_inv votes Hpos Hnd) as [_ Hvic]. rewrite Hv in Hvic.
    subst votes. apply Permutation_nil in Hperm as ->. reflexivity. }
  destruct (victimId (tally votes')) as [v'|] eqn:Hv'; cycle 1.
  { destruct (tally_inv votes' Hpos' Hnd') as [_ Hvic]. rewrite Hv' in Hvic.
    subst votes'. apply Permutation_nil_r in Hperm. subst votes.
    cbn in Hv. discriminate. }
  destruct (tally_top votes v Hpos Hnd Hv) as (Hvin & Hmax & Htie).
  destruct (tally_top votes' v' Hpos' Hnd' Hv') as (Hvin' & Hmax' & Htie').
  assert (maxVotes (tally votes) = maxVotes (tally votes')) as Hm.
  { pose proof (Hmax' _ (proj1 (Hin _) Hvin)) as H1.
    pose proof (Hmax _ (proj2 (Hin _) Hvin')) as H2. cbn in H1, H2. lia. }
  rewrite <- Hm in Hvin', Htie'.
  assert (tie (tally votes) = tie (tally votes')) as Ht.
  { apply eq_true_iff_eq. rewrite Htie, Htie'. split.
    - intros (y & Hy & Hyin). destruct (decide (v' = v)) as [->|Hne].
      + exists y. split; [done|]. by apply Hin.
      + exists v. split; [done|]. by apply Hin.
    - intros (y & Hy & Hyin). destruct (decide (v = v')) as [->|Hne].
      + exists y. split; [done|]. by apply Hin.
      + exists v'. split; [done|]. by apply Hin. }
  rewrite <- Ht. destruct (tie (tally votes)) eqn:Htied.
  - by rewrite !andb_false_r.
  - assert (v' = v) as ->; [|done].
    destruct (decide (v' = v)) as [|Hne]; [done|]. exfalso.
    assert (false = true) as Habs; [|discriminate Habs].
    apply Htie. exists v'. split; [done|]. by apply Hin.
Qed.

Lemma verdict_any_order_witness :
  verdict [("p-1", 3); ("p-2", 1)] = verdict [("p-2", 1); ("p-1", 3)] /\
  verdict [("p-1", 3); ("p-2", 1)] = Some "p-1".
Proof.
  split; [|reflexivity].
  apply verdict_any_order.
  - apply perm_swap.
  - repeat constructor.
  - apply (bool_decide_unpack (NoDup (map fst [("p-1", 3); ("p-2", 1)]))).
    vm_compute. exact I.
Defined.

(** ** The start of a game: the roster *)

Lemma newPlayer_seat setupName avatar names botAvatar roles idx p :
  newPlayer setupName avatar names botAvatar roles idx = Some p ->
  id p = seatId idx /\ fresh p /\ isBot p = negb (idx =? 0) /\
  (idx <> 0 -> name p <> "").
Proof.
  unfold newPlayer. destruct (roles !! idx) as [r|]; [|done].
  intros [= <-]. cbn. split; [done|]. split; [by repeat split|].
  split; [done|]. intros Hidx.
  destruct idx as [|idx]; [done|]. cbn.
  destruct (names !! _) as [n|]; [|done].
  destruct (String.eqb_spec n "") as [->|Hn]; done.
Qed.

Lemma newPlayers_seats setupName avatar names botAvatar roles l ps :
  Forall2 (fun idx p => newPlayer setupName avatar names botAvatar roles idx = Some p)
          l ps ->
  Forall fresh ps /\
  Forall2 (fun idx p => id p = seatId idx /\ isBot p = negb (idx =? 0) /\
                        (idx <> 0 -> name p <> "")) l ps.
Proof.
  induction 1 as [|idx p l ps Hp _ [IH1 IH2]]; [by split; constructor|].
  apply newPlayer_seat in Hp as (Hid & Hfresh & Hbot & Hname).
  split; constructor; done.
Qed.

Lemma bots_from (a n : nat) (bots : list Player) :
  Forall2 (fun idx p => id p = seatId idx /\ isBot p = negb (idx =? 0) /\
                        (idx <> 0 -> name p <> ""))
          (seq (S a) n) bots ->
  Forall (fun p => isBot p = true /\ name p <> "") bots.
Proof.
  revert a bots. induction n as [|n IH]; intros a bots Hall.
  - inversion Hall. constructor.
  - cbn [seq] in Hall. inversion Hall as [|? p ? ps (_ & Hb & Hn) Hrest]; subst.
    constructor; [|by apply (IH (S a))]. split; [done|]. by apply Hn.
Qed.

(** [handleStartGame] dispatches nothing on a blank name, and otherwise at
    most one action, a [START_GAME]: of [setupCount] players with the ids
    [p-0], [p-1], ... in seating order, all different, everybody alive and
    unmarked with no vote cast; seat 0 is the human, with the name and the
    avatar of the form, and is the player that [humanId] finds in the new
    state; every other seat is a bot with a name that is not empty, also
    when the names of the bots have run out. *)
Theorem handleStartGame_roster roleTable (o : Oracle)
    (setupName trimmedName avatar : string) (setupCount : nat)
    (names : list string) (botAvatar : nat -> string) :
  let run := handleStartGame roleTable o setupName trimmedName avatar
               setupCount names botAvatar in
  (trimmedName = "" -> dispatched run = []) /\
  (forall newPlayers humanId,
     In (START_GAME newPlayers humanId) (dispatched run) ->
     dispatched run = [START_GAME newPlayers humanId] /\
     humanId = seatId 0 /\
     map id newPlayers = map seatId (seq 0 setupCount) /\
     NoDup (map id newPlayers) /\
     Forall fresh newPlayers /\
     (exists human bots,
        newPlayers = human :: bots /\
        isBot human = false /\ name human = setupName /\
        avatarUrl human = avatar /\
        Forall (fun p => isBot p = true /\ name p <> "") bots /\
        forall s, getHumanPlayer (gameReducer s (START_GAME newPlayers humanId))
                  = Some human)).
Proof.
  cbv zeta. unfold handleStartGame. split.
  { intros ->. reflexivity. }
  intros newPlayers humanId.
  destruct (String.eqb trimmedName ""); [by intros []|].
  destruct (distribution _ _) as [|roles]; [by intros []|].
  destruct (shuffle o roles) as [roles'|]; [|by intros []].
  destruct (mapM _ _) as [[|human bots]|] eqn:Hm; try (by intros []).
  intros [[= <- <-]|[]].
  pose proof (mapM_Some_1 _ _ _ Hm) as Hall.
  destruct (newPlayers_spec _ _ _ _ _ _ _ Hm) as (Hid & _ & _).
  destruct (newPlayers_seats _ _ _ _ _ _ _ Hall) as [Hfresh Hseats].
  destruct setupCount as [|n]; [by inversion Hall|].
  cbn [seq] in Hall, Hseats. cbn in Hid.
  inversion Hall as [|? ? ? ? Hhuman Hbots]; subst.
  inversion Hseats as [|? ? ? ? (Hid0 & Hbot0 & _) Hrest]; subst.
  split; [done|]. split; [done|]. split; [done|]. split.
  { cbn [map]. rewrite Hid. change (seatId 0 :: map seatId (seq 1 n))
      with (map seatId (seq 0 (S n))).
    apply (NoDup_fmap_2 seatId), NoDup_ListNoDup, seq_NoDup. }
  split; [done|]. exists human, bots. split; [done|].
  split; [done|].
  assert (name human = setupName /\ avatarUrl human = avatar) as [Hname Hav].
  { unfold newPlayer in Hhuman. destruct (roles' !! 0); [|done].
    by injection Hhuman as <-. }
  split; [done|]. split; [done|]. split.
  - by apply (bots_from 0 n).
  - intros s. unfold getHumanPlayer. cbn. by rewrite Hid0, String.eqb_refl.
Qed.

Lemma handleStartGame_roster_witness :
  map id (players firstNight) = map seatId (seq 0 6) /\
  Forall fresh (players firstNight) /\
  exists human, getHumanPlayer firstNight = Some human /\ name human = "Ann".
Proof.
  assert (exists newPlayers humanId,
            dispatched (handleStartGame sampleTable quiet "Ann" "Ann" "ann.png" 6 []
                          (fun _ => "bot.png"))
            = [START_GAME newPlayers humanId]) as (ps & h & Hd).
  { vm_compute. eauto. }
  destruct (handleStartGame_roster sampleTable quiet "Ann" "Ann" "ann.png" 6 []
              (fun _ => "bot.png")) as [_ Hroster].
  destruct (Hroster ps h) as (_ & _ & Hids & _ & Hfresh & human & bots & _ & _ &
                              Hname & _ & _ & Hhuman).
  { rewrite Hd. by left. }
  unfold firstNight, exec. rewrite Hd. cbn [fold_left].
  split; [exact Hids|]. split; [exact Hfresh|].
  exists human. split; [apply Hhuman|exact Hname].
Defined.

(** ** The talk of the day *)

Lemma aliveBots_In (ps : list Player) (p : Player) :
  In p (aliveBots ps) <-> In p ps /\ isBot p = true /\ isAlive p = true.
Proof. unfold aliveBots. rewrite filter_In, andb_true_iff. tauto. Qed.

Lemma aliveBots_none (state : GameState) :
  length (aliveBots (players state)) = 0 <-> ~ hasAliveBot state.
Proof.
  split.
  - intros Hlen (p & Hp). apply aliveBots_In in Hp.
    destruct (aliveBots (players state)); [done|discriminate Hlen].
  - intros Hno. destruct (aliveBots (players state)) as [|p l] eqn:Hl; [done|].
    destruct Hno. exists p. apply aliveBots_In. rewrite Hl. by left.
Qed.

Lemma speaker_is_alive_bot (state : GameState) (k : nat) (speaker : Player) :
  aliveBots (players state) !! k = Some speaker ->
  In speaker (players state) /\ isBot speaker = true /\ isAlive speaker = true.
Proof.
  intros Hk. apply aliveBots_In, list_elem_of_In.
  by apply (list_elem_of_lookup_2 _ k).
Qed.

Lemma speaker_drawn (o : Oracle) (state : GameState) :
  fair o -> hasAliveBot state ->
  is_Some (aliveBots (players state)
             !! randomBelow o 0 (length (aliveBots (players state)))).
Proof.
  intros Hfair Hbot. apply lookup_lt_is_Some_2, Hfair.
  destruct (length (aliveBots (players state))) eqn:Hlen; [|lia].
  by apply aliveBots_none in Hlen.
Qed.

(** What [generateBotDiscussion] resolves to is the line of an alive bot. *)
Lemma generateBotDiscussion_line apiKey o reply state speaker content :
  snd (generateBotDiscussion apiKey o reply (players state))
  = Some (Some (speaker, content)) ->
  exists p, In p (players state) /\ isBot p = true /\ isAlive p = true /\
            speaker = name p /\ content <> "".
Proof.
  unfold generateBotDiscussion.
  destruct (truthy apiKey); [|done]. cbn [negb].
  destruct (length _ =? 0); [done|].
  destruct (aliveBots _ !! _) as [p|] eqn:Hp; [|done].
  apply speaker_is_alive_bot in Hp as (? & ? & ?).
  destruct reply as [text|]; intros [= <- <-]; exists p; repeat split; try done.
  by apply orElse_nonempty.
Qed.

Lemma generateBotResponseToUser_line apiKey o reply state speaker content :
  snd (generateBotResponseToUser apiKey o reply (players state))
  = Some (Some (speaker, content)) ->
  exists p, In p (players state) /\ isBot p = true /\ isAlive p = true /\
            speaker = name p /\ content <> "".
Proof.
  unfold generateBotResponseToUser.
  destruct (truthy apiKey); [|done]. cbn [negb].
  destruct (length _ =? 0); [done|].
  destruct (aliveBots _ !! _) as [p|] eqn:Hp; [|done].
  apply speaker_is_alive_bot in Hp as (? & ? & ?).
  destruct reply as [text|]; [|done]. intros [= <- <-]; exists p; repeat split; try done.
  by apply orElse_nonempty.
Qed.

(** The timer of the discussion, with fair draws, never throws.  While the
    phase is [DAY_DISCUSS], with an API key and a bot alive, it logs exactly
    one line, whatever the language model does (a text, an empty text, an
    error): the line of a bot of the roster that is alive, under its name,
    with a text that is not empty.  Otherwise it dispatches nothing: in
    every other phase, without a key, and when no bot is alive. *)
Theorem discussion_speaker (apiKey : option string) (o : Oracle)
    (reply : option (option string)) (state : GameState) :
  fair o ->
  let run := discussionTimer apiKey o reply state in
  completes run /\
  (phase state = DAY_DISCUSS /\ truthy apiKey = true /\ hasAliveBot state ->
   exists line, says run line /\ botLine state line) /\
  (~ (phase state = DAY_DISCUSS /\ truthy apiKey = true /\ hasAliveBot state) ->
   dispatched run = []).
Proof.
  intros Hfair. cbv zeta.
  unfold discussionTimer, runAutoDiscussion, GamePhase_eqb.
  case_bool_decide as Hph; cbn [negb].
  2: { split; [by eexists|]. split; [by intros (? & _)|done]. }
  pose proof (generateBotDiscussion_line apiKey o reply state) as Hline.
  unfold generateBotDiscussion in *.
  destruct (truthy apiKey); cbn [negb] in *.
  2: { split; [by eexists|]. split; [by intros (_ & ? & _)|done]. }
  destruct (length (aliveBots (players state)) =? 0) eqn:Hlen.
  { apply Nat.eqb_eq, aliveBots_none in Hlen.
    split; [by eexists|]. split; [by intros (_ & _ & ?)|done]. }
  apply Nat.eqb_neq in Hlen.
  assert (hasAliveBot state) as Hbot.
  { destruct (aliveBots (players state)) as [|p l] eqn:Hl; [done|].
    exists p. apply aliveBots_In. rewrite Hl. by left. }
  destruct (speaker_drawn o state Hfair Hbot) as [p Hp].
  rewrite Hp in *.
  assert (exists content,
            (if reply is Some text
             then ret (Some (name p, orElse text "我覺得有點可疑..."))
             else ret (Some (name p, "大家安靜一下，我有種不祥的預感。")))
            = ret (Some (name p, content))) as [content Hc].
  { destruct reply; by eexists. }
  rewrite Hc in *.
  destruct (Hline (name p) content eq_refl) as (q & Hq & Hqb & Hqa & Hname & Htext).
  cbn.
  split; [by eexists|]. split; [|by intros []].
  intros _. eexists. split; [reflexivity|].
  exists q. by repeat split.
Qed.

Lemma discussion_speaker_witness :
  completes (discussionTimer (Some "key") quiet None discussion) /\
  exists line,
    says (discussionTimer (Some "key") quiet None discussion) line /\
    botLine discussion line.
Proof.
  assert (fair quiet) as Hfair by (intros k n Hn; exact Hn).
  destruct (discussion_speaker (Some "key") quiet None discussion Hfair)
    as (Hdone & Hline & _).
  split; [exact Hdone|]. apply Hline.
  split; [reflexivity|]. split; [reflexivity|].
  exists (seat "p-1" WEREWOLF true false false false None).
  split; [|by split]. right. by left.
Defined.

(** Sending a chat message never throws, whatever the draw and the
    language model do, and never touches the game: phase, roster, potions,
    victim and winner stay as they are.  A message that is not blank, sent
    while none is pending and with the human in the roster, is logged at
    once under the human's name: the handler itself checks neither the
    phase nor that the human is alive.  The answer, if any, is one line of
    a bot of the roster that is alive, with a text that is not empty.  A
    blank message, a message pending or a missing human: nothing is
    logged. *)
Theorem chat_is_only_talk (apiKey : option string) (o : Oracle)
    (reply : option (option string)) (msgText : string) (isSendingChat : bool)
    (state : GameState) :
  let run := handleSendChat o msgText isSendingChat
               (chatReply apiKey o reply state) state in
  completes (immediate run) /\ completes (afterwards run) /\
  (forall s, sameGame s (exec (afterwards run) (exec (immediate run) s))) /\
  (forall human,
     getHumanPlayer state = Some human -> msgText <> "" -> isSendingChat = false ->
     (exists line,
        says (immediate run) line /\ LogMessage.sender line = name human /\
        LogMessage.text line = msgText) /\
     (dispatched (afterwards run) = [] \/
      exists line, says (afterwards run) line /\ botLine state line)) /\
  (getHumanPlayer state = None \/ msgText = "" \/ isSendingChat = true ->
   dispatched (immediate run) = [] /\ dispatched (afterwards run) = []).
Proof.
  cbv zeta. unfold handleSendChat.
  destruct (String.eqb_spec msgText "") as [->|Hmsg]; cbn [orb].
  { split; [by eexists|]. split; [by eexists|]. split; [by intros s|].
    split; [done|done]. }
  destruct isSendingChat.
  { split; [by eexists|]. split; [by eexists|]. split; [by intros s|].
    split; [done|done]. }
  destruct (getHumanPlayer state) as [human|].
  2: { split; [by eexists|]. split; [by eexists|]. split; [by intros s|].
       split; [done|done]. }
  pose proof (generateBotResponseToUser_line apiKey o reply state) as Hline.
  unfold chatReply.
  destruct (generateBotResponseToUser apiKey o reply (players state))
    as [acts [[[speaker content]|]|]]; cbn.
  - split; [by eexists|]. split; [by eexists|]. split; [by intros s|].
    split; [|by intros [|[|]]].
    intros ? [= <-] _ _. split; [by eexists|]. right.
    destruct (Hline speaker content eq_refl) as (q & Hq & Hqb & Hqa & -> & Htext).
    eexists. split; [reflexivity|]. exists q. by repeat split.
  - split; [by eexists|]. split; [by eexists|]. split; [by intros s|].
    split; [|by intros [|[|]]].
    intros ? [= <-] _ _. split; [by eexists|]. by left.
  - split; [by eexists|]. split; [by eexists|]. split; [by intros s|].
    split; [|by intros [|[|]]].
    intros ? [= <-] _ _. split; [by eexists|]. by left.
Qed.

Lemma chat_is_only_talk_witness :
  exists line,
    says (immediate (handleSendChat quiet "hello" false
                       (chatReply None quiet None nightOver) nightOver)) line /\
    LogMessage.text line = "hello".
Proof.
  destruct (chat_is_only_talk None quiet None "hello" false nightOver)
    as (_ & _ & _ & Hsent & _).
  destruct (Hsent (seat "p-0" VILLAGER true true true true None))
    as [(line & Hsays & _ & Htext) _]; [reflexivity|done|done|].
  by exists line.
Defined.

(** ** The page: what the buttons do *)

Lemma isHumanTurn_inv (state : GameState) :
  isHumanTurn state = true ->
  exists human,
    getHumanPlayer state = Some human /\ isAlive human = true /\
    (phase state = NIGHT_WEREWOLF /\ role human = WEREWOLF \/
     phase state = NIGHT_SEER /\ role human = SEER \/
     phase state = NIGHT_WITCH /\ role human = WITCH \/
     phase state = DAY_VOTE).
Proof.
  unfold isHumanTurn, GamePhase_eqb, Role_eqb.
  destruct (getHumanPlayer state) as [human|]; [|done].
  intros H. exists human. split; [done|].
  repeat (apply orb_true_iff in H as [H|H]);
    repeat (apply andb_true_iff in H as [H ?]);
    repeat match goal with
           | H : bool_decide _ = true |- _ => apply bool_decide_eq_true_1 in H
           end;
    auto 10.
Qed.

(** Every button that the page offers does something when clicked, with
    one exception: the confirmation during the witch's turn, which is
    offered to the witch once a player is selected and dispatches nothing,
    at once or later. *)
Theorem enabled_buttons_act (o : Oracle) (sel : option string)
    (state : GameState) (c : Control) :
  enabled state sel c = true ->
  (allDispatched (onClick o sel state c) = []
   <-> c = confirmAction /\ phase state = NIGHT_WITCH).
Proof.
  destruct c; cbn [enabled onClick]; intros He;
    repeat (apply andb_true_iff in He as [He ?]);
    repeat match goal with
           | H : GamePhase_eqb _ _ = true |- _ => apply bool_decide_eq_true_1 in H
           end.
  - apply isHumanTurn_inv in He as (human & Hh & Ha & Hturn).
    unfold allDispatched, handleHumanAction. rewrite Hh, Ha.
    destruct sel as [x|]; [|done]. rewrite H. cbn [negb andb].
    unfold GamePhase_eqb, Role_eqb.
    destruct Hturn as [[Hp Hr]|[[Hp Hr]|[[Hp Hr]|Hp]]]; rewrite Hp, ?Hr; cbn.
    + split; [done|]. by intros [_ ?].
    + split; [|by intros [_ ?]].
      by destruct (find _ _).
    + done.
    + destruct (role human); cbn; (split; [done|by intros [_ ?]]).
  - unfold allDispatched, handleWitchSave.
    destruct (lastKilledId state) as [k|]; [|done].
    rewrite H0, H. cbn. split; [done|]. by intros [? _].
  - unfold allDispatched, handleWitchPoison.
    destruct sel as [x|]; [|done].
    rewrite H, H0. cbn. split; [done|]. by intros [? _].
  - unfold allDispatched, skipPhase. rewrite He. cbn.
    split; [done|]. by intros [? _].
  - unfold allDispatched, skipPhase. rewrite He. cbn.
    split; [done|]. by intros [? _].
Qed.

Lemma enabled_buttons_act_witness :
  allDispatched (onClick quiet (Some "p-2") witchNight confirmAction) = [].
Proof.
  apply (enabled_buttons_act quiet (Some "p-2") witchNight confirmAction);
    [reflexivity|by split].
Defined.

(** Through the page, a role acts in its own turn only, and only for a
    human who holds the role and is alive: a click on a button that the
    page offers dispatches a kill only in the werewolves' turn of a human
    werewolf, a seer result only in the seer's turn of a human seer, and
    spends a potion, saves or poisons only in the witch's turn of a human
    witch.  The witch's handlers themselves check neither the phase nor
    the role: the page does. *)
Theorem page_respects_roles (o : Oracle) (sel : option string)
    (state : GameState) (c : Control) (a : Action) (r : Role) (ph : GamePhase) :
  enabled state sel c = true ->
  In a (allDispatched (onClick o sel state c)) ->
  nightAction r ph a ->
  phase state = ph /\ humanIs state r.
Proof.
  unfold humanIs.
  destruct c; cbn [enabled onClick]; intros He;
    repeat (apply andb_true_iff in He as [He ?]);
    repeat match goal with
           | H : GamePhase_eqb _ _ = true |- _ => apply bool_decide_eq_true_1 in H
           end.
  - apply isHumanTurn_inv in He as (human & Hh & Ha & Hturn).
    unfold allDispatched, handleHumanAction. rewrite Hh, Ha.
    destruct sel as [x|]; [|done]. rewrite H. cbn [negb andb].
    unfold GamePhase_eqb, Role_eqb.
    destruct Hturn as [[Hp Hr]|[[Hp Hr]|[[Hp Hr]|Hp]]]; rewrite Hp, ?Hr;
      repeat (rewrite ?bool_decide_eq_true_2, ?bool_decide_eq_false_2 by done);
      cbn.
    + intros Hin Hact.
      decompose [or] Hin; subst; inversion Hact; subst;
        (split; [done|by exists human]).
    + intros Hin Hact.
      destruct (find _ _); cbn in Hin; decompose [or] Hin; subst;
        inversion Hact; subst; (split; [done|by exists human]).
    + done.
    + destruct (role human);
        repeat (rewrite ?bool_decide_eq_true_2, ?bool_decide_eq_false_2 by done);
        cbn; intros Hin Hact; exfalso; decompose [or] Hin; subst;
        by inversion Hact.
  - apply isHumanTurn_inv in He as (human & Hh & Ha & Hturn).
    assert (role human = WITCH) as Hr.
    { destruct Hturn as [[? ?]|[[? ?]|[[? ?]|?]]]; congruence. }
    unfold allDispatched, handleWitchSave.
    destruct (lastKilledId state) as [k|]; [|done].
    cbn [immediate afterwards]. destruct (_ && _); [|done]. cbn.
    intros Hin Hact.
    decompose [or] Hin; subst; inversion Hact; subst;
      (split; [done|by exists human]).
  - apply isHumanTurn_inv in He as (human & Hh & Ha & Hturn).
    assert (role human = WITCH) as Hr.
    { destruct Hturn as [[? ?]|[[? ?]|[[? ?]|?]]]; congruence. }
    unfold allDispatched, handleWitchPoison.
    destruct sel as [x|]; [|done].
    cbn [immediate afterwards]. destruct (_ && _); [|done]. cbn.
    intros Hin Hact.
    decompose [or] Hin; subst; inversion Hact; subst;
      (split; [done|by exists human]).
  - unfold allDispatched, skipPhase, GamePhase_eqb. rewrite He.
    repeat (rewrite ?bool_decide_eq_true_2, ?bool_decide_eq_false_2 by done).
    cbn. intros Hin Hact. decompose [or] Hin; subst; by inversion Hact.
  - unfold allDispatched, skipPhase, GamePhase_eqb. rewrite He.
    repeat (rewrite ?bool_decide_eq_true_2, ?bool_decide_eq_false_2 by done).
    cbn. intros Hin Hact. decompose [or] Hin; subst; by inversion Hact.
Qed.

Lemma page_respects_roles_witness :
  phase witchNight = NIGHT_WITCH /\ humanIs witchNight WITCH.
Proof.
  apply (page_respects_roles quiet (Some "p-1") witchNight usePoison
           (SET_WITCH_POTION poison_potion true) WITCH NIGHT_WITCH).
  - reflexivity.
  - right. by left.
  - constructor.
Defined.

(** While no side has won, somebody else than [human] is alive. *)
Lemma somebody_else_alive (state : GameState) (human : Player) :
  NoDup (map id (players state)) ->
  winCheck state = None ->
  phase state <> SETUP -> phase state <> GAME_OVER ->
  In human (players state) ->
  exists q, In q (players state) /\ isAlive q = true /\ id q <> id human.
Proof.
  intros Hnd Hwin Hp1 Hp2 Hh.
  rewrite winCheck_running in Hwin by done.
  destruct (Nat.eqb_spec (aliveWolves state) 0) as [|Hw]; [done|].
  destruct (Nat.leb_spec (aliveGood state) (aliveWolves state)) as [|Hg]; [done|].
  unfold aliveWolves, aliveGood, aliveWolfPlayers, aliveGoodPlayers in *.
  apply Nat.neq_0_lt_0, filter_nonempty in Hw as (w & Hwin' & Hwf).
  assert (0 < length (List.filter
                        (fun p => isAlive p && negb (Role_eqb (role p) WEREWOLF))
                        (players state))) as Hg' by lia.
  apply filter_nonempty in Hg' as (g & Hgin & Hgf).
  apply andb_true_iff in Hwf as [Hwa Hwr], Hgf as [Hga Hgr].
  unfold Role_eqb in *.
  apply bool_decide_eq_true_1 in Hwr.
  apply negb_true_iff, bool_decide_eq_false_1 in Hgr.
  destruct (decide (role human = WEREWOLF)) as [Hr|Hr].
  - exists g. split; [done|]. split; [done|].
    intros Heq. apply (NoDup_ids_eq _ _ _ Hnd Hgin Hh) in Heq. congruence.
  - exists w. split; [done|]. split; [done|].
    intros Heq. apply (NoDup_ids_eq _ _ _ Hnd Hwin' Hh) in Heq. congruence.
Qed.

(** The human's turn can always be brought to an end.  In a state with
    distinct ids that are not empty in which no side has won and the page
    waits for the human, there are a player card and a button such that
    the button is enabled once the card is clicked, and a click on it
    dispatches the move to the next phase: [NIGHT_SEER] after the
    werewolves, [NIGHT_WITCH] after the seer, [NIGHT_END] after the witch
    and [DAY_EXECUTE] after the vote. *)
Theorem human_can_move_on (o : Oracle) (state : GameState) :
  wellFormed state -> winCheck state = None -> isHumanTurn state = true ->
  exists player c,
    In player (players state) /\
    let sel := onPlayerClick state player None in
    enabled state sel c = true /\
    In (NEXT_PHASE (afterTurn (phase state)))
       (allDispatched (onClick o sel state c)).
Proof.
  intros (Hnd & Hids & _ & _) Hwin Hturn.
  pose proof Hturn as (human & Hh & Ha & Hcase)%isHumanTurn_inv.
  assert (In human (players state)) as Hin.
  { unfold getHumanPlayer in Hh. by apply find_some in Hh as [? _]. }
  destruct (somebody_else_alive state human Hnd Hwin) as (q & Hq & Hqa & Hne);
    [destruct Hcase as [[? ?]|[[? ?]|[[? ?]|?]]]; congruence..|done|].
  assert (onPlayerClick state q None = Some (id q)) as Hsel.
  { unfold onPlayerClick. rewrite Hturn, Hqa, Hh. cbn.
    by rewrite (proj2 (String.eqb_neq _ _) Hne). }
  assert (truthy (Some (id q)) = true) as Htruthy.
  { apply truthy_Some. by apply Hids. }
  destruct Hcase as [[Hp Hr]|[[Hp Hr]|[[Hp Hr]|Hp]]].
  - exists q, confirmAction. split; [done|]. cbv zeta. rewrite Hsel.
    cbn [enabled onClick]. rewrite Hturn, Htruthy. split; [done|].
    unfold allDispatched, handleHumanAction, GamePhase_eqb, Role_eqb.
    rewrite Hh, Ha, Htruthy, Hp, Hr.
    repeat (rewrite ?bool_decide_eq_true_2, ?bool_decide_eq_false_2 by done).
    cbn. auto 10.
  - exists q, confirmAction. split; [done|]. cbv zeta. rewrite Hsel.
    cbn [enabled onClick]. rewrite Hturn, Htruthy. split; [done|].
    unfold allDispatched, handleHumanAction, GamePhase_eqb, Role_eqb.
    rewrite Hh, Ha, Htruthy, Hp, Hr.
    repeat (rewrite ?bool_decide_eq_true_2, ?bool_decide_eq_false_2 by done).
    cbn. apply in_or_app. right. by left.
  - exists q, doNothing. split; [done|]. cbv zeta.
    cbn [enabled onClick]. rewrite Hturn. unfold GamePhase_eqb. rewrite Hp.
    split; [done|].
    unfold allDispatched, skipPhase, GamePhase_eqb. rewrite Hp.
    repeat (rewrite ?bool_decide_eq_true_2, ?bool_decide_eq_false_2 by done).
    cbn. auto.
  - exists q, confirmAction. split; [done|]. cbv zeta. rewrite Hsel.
    cbn [enabled onClick]. rewrite Hturn, Htruthy. split; [done|].
    unfold allDispatched, handleHumanAction, GamePhase_eqb, Role_eqb.
    rewrite Hh, Ha, Htruthy, Hp.
    destruct (role human);
      repeat (rewrite ?bool_decide_eq_true_2, ?bool_decide_eq_false_2 by done);
      cbn; auto 10.
Qed.

Lemma human_can_move_on_witness :
  exists player c,
    In player (players wolfPack) /\
    enabled wolfPack (onPlayerClick wolfPack player None) c = true /\
    In (NEXT_PHASE NIGHT_SEER)
       (allDispatched (onClick quiet (onPlayerClick wolfPack player None)
                         wolfPack c)).
Proof.
  apply (human_can_move_on quiet wolfPack); [|reflexivity|reflexivity].
  split; [|split; [|split]].
  - apply (bool_decide_unpack (NoDup (map id (players wolfPack)))).
    vm_compute. exact I.
  - intros p Hp. cbn in Hp. decompose [or] Hp; subst; done.
  - intros p Hp. cbn in Hp. decompose [or] Hp; subst; done.
  - done.
Defined.
